(** * EmulatedCameraDevice: a shallow embedding of
      tools/emulator/system/camera/EmulatedCameraDevice.cpp

    The C++ class is embedded in state-passing style.  A method of
    [EmulatedCameraDevice] becomes a function from the object and the
    surrounding [World] (heap of [new[]] blocks, descriptor table, log of
    observable actions) to a status, the updated object and the updated
    world.  What the environment decides (whether [new] succeeds, what
    [pipe], [write], [select], [read] and the thread join return) is an
    explicit oracle argument of the call that consumes it.  The two pure
    virtual hooks [startDevice] / [stopDevice] form the type class
    [DeviceHooks].  [Mutex::Autolock] is not modelled: every method is
    given its sequential meaning. *)

From Stdlib Require Import ZArith List Bool Lia.
From Stdlib.Strings Require Import Byte.
From stdpp Require Import base gmap list.
Import ListNotations.
Local Open Scope Z_scope.

(** ** Status codes and C integers *)

Definition status_t := Z.

Definition NO_ERROR : status_t := 0.
Definition ENOMEM : status_t := 12.
Definition EINVAL : status_t := 22.

Definition INT_MIN : Z := - 2 ^ 31.
Definition INT_MAX : Z := 2 ^ 31 - 1.

(** A 32-bit [int] is a [Z] in [INT_MIN .. INT_MAX]; arithmetic that leaves
    the range wraps around, as the generated code does. *)
Definition wrap_int (z : Z) : Z := (z + 2 ^ 31) mod 2 ^ 32 - 2 ^ 31.

Definition int_mul (a b : Z) : Z := wrap_int (a * b).
Definition int_add (a b : Z) : Z := wrap_int (a + b).
(** C division truncates towards zero. *)
Definition int_div (a b : Z) : Z := wrap_int (Z.quot a b).
Definition int_rem (a b : Z) : Z := wrap_int (Z.rem a b).

(** [v4l2_fourcc(a, b, c, d)] of <linux/videodev2.h>. *)
Definition v4l2_fourcc (a b c d : Z) : Z :=
  Z.lor (Z.lor a (Z.shiftl b 8)) (Z.lor (Z.shiftl c 16) (Z.shiftl d 24)).

(** 'Y' 'V' '1' '2' *)
Definition V4L2_PIX_FMT_YVU420 : Z := v4l2_fourcc 89 86 49 50.

(** ** Memory, descriptors and the log of observable actions *)

Definition block := positive.

(** A [uint8_t*] into a [new[]] block: the block and a byte offset from its
    start.  [NULL] is [None] at the use sites. *)
Record ptr := mkPtr { p_block : block; p_off : Z }.

Definition ptr_add (p : ptr) (n : Z) : ptr :=
  {| p_block := p_block p; p_off := p_off p + n |}.

Inductive event :=
| EvNewArray (n : Z) (p : option block)      (* new uint8_t[n] and its result *)
| EvDeleteArray (b : block)                  (* delete[] *)
| EvNewWorkerThread (ok : bool)              (* new WorkerThread(this) *)
| EvPipe (fds : option (Z * Z))              (* pipe(): (read end, write end) *)
| EvWrite (fd msg ret : Z)                   (* write(fd, &msg, sizeof msg) *)
| EvJoin (ret : status_t)                    (* requestExitAndWait() *)
| EvClose (fd : Z)                           (* close(fd) *)
| EvSpawn                                    (* the loop is spawned *)
| EvRead (fd ret : Z).                       (* read(fd, &msg, sizeof msg) *)

Record World := mkWorld {
  heap : gmap block (list byte);   (* live new[] blocks and their content *)
  fdtable : gset Z;                (* open descriptors of the process *)
  log : list event                 (* most recent action first *)
}.

Definition emit (e : event) (w : World) : World :=
  {| heap := heap w; fdtable := fdtable w; log := e :: log w |}.

Definition set_heap (h : gmap block (list byte)) (w : World) : World :=
  {| heap := h; fdtable := fdtable w; log := log w |}.

Definition set_fdtable (t : gset Z) (w : World) : World :=
  {| heap := heap w; fdtable := t; log := log w |}.

(** What the allocator answers to one [new uint8_t[n]]: [NULL], or a block
    whose bytes are whatever was in memory ([junk], cut or padded to [n]). *)
Inductive alloc_oracle :=
| AllocFails
| AllocGives (junk : list byte).

(** [new uint8_t[n]].  A negative [int] size converts to a [size_t] that no
    allocator can serve, so it yields [NULL] whatever the oracle says. *)
Definition new_uint8_array (o : alloc_oracle) (n : Z) (w : World)
  : option block * World :=
  match o with
  | AllocGives junk =>
      if 0 <=? n then
        let b := fresh (dom (heap w)) in
        (Some b,
         emit (EvNewArray n (Some b))
              (set_heap (<[b := resize (Z.to_nat n) x00 junk]> (heap w)) w))
      else (None, emit (EvNewArray n None) w)
  | AllocFails => (None, emit (EvNewArray n None) w)
  end.

(** [delete[] p] for a non-null [p]. *)
Definition delete_array (b : block) (w : World) : World :=
  emit (EvDeleteArray b) (set_heap (delete b (heap w)) w).

(** [memcpy(dst, src, n)] on the bytes behind the two pointers; [None] when
    the copy would run past either region (undefined behaviour). *)
Definition memcpy (dst src : list byte) (n : Z) : option (list byte) :=
  if (0 <=? n) && (n <=? Z.of_nat (length src)) && (n <=? Z.of_nat (length dst))
  then Some (take (Z.to_nat n) src ++ drop (Z.to_nat n) dst)
  else None.

(** ** The worker thread object *)

Record WorkerThread := mkWorkerThread {
  mThreadControl : Z;   (* write end of the control pipe, or negative *)
  mControlFD : Z        (* read end of the control pipe, or negative *)
}.

(** Modelled from the spec: the constructor of [WorkerThread] is declared in
    EmulatedCameraDevice.h, which is not part of the sources.  A thread that
    was never started has both signaling endpoints closed. *)
Definition WorkerThread_new : WorkerThread :=
  {| mThreadControl := -1; mControlFD := -1 |}.

(** Modelled from the spec: [enum ControlMessage] is declared in the missing
    header; it has the single value [THREAD_STOP] and the size of an [int]. *)
Definition THREAD_STOP : Z := 0.
Definition sizeof_ControlMessage : Z := 4.

Inductive SelectRes := TIMEOUT | READY | EXIT_THREAD | ERROR.

(** ** The device object *)

(** Modelled from the spec: the state enumeration is declared in the missing
    header.  The source names [ECDS_CONSTRUCTED] and [ECDS_INITIALIZED]; the
    spec adds the capturing sub-states started and stopped. *)
Inductive EmulatedCameraDeviceState :=
| ECDS_CONSTRUCTED
| ECDS_INITIALIZED
| ECDS_STARTED
| ECDS_STOPPED.

Record EmulatedCameraDevice := mkDevice {
  mCurFrameTimestamp : Z;
  mCurrentFrame : option block;
  mFrameU : option ptr;
  mFrameV : option ptr;
  mState : EmulatedCameraDeviceState;
  mWorkerThread : option WorkerThread;
  mFrameWidth : Z;
  mFrameHeight : Z;
  mPixelFormat : Z;
  mTotalPixels : Z;
  mFrameBufferSize : Z
}.

Definition set_mCurrentFrame (v : option block) (d : EmulatedCameraDevice) :=
  mkDevice (mCurFrameTimestamp d) v (mFrameU d) (mFrameV d) (mState d)
           (mWorkerThread d) (mFrameWidth d) (mFrameHeight d) (mPixelFormat d)
           (mTotalPixels d) (mFrameBufferSize d).

Definition set_mFrameU (v : option ptr) (d : EmulatedCameraDevice) :=
  mkDevice (mCurFrameTimestamp d) (mCurrentFrame d) v (mFrameV d) (mState d)
           (mWorkerThread d) (mFrameWidth d) (mFrameHeight d) (mPixelFormat d)
           (mTotalPixels d) (mFrameBufferSize d).

Definition set_mFrameV (v : option ptr) (d : EmulatedCameraDevice) :=
  mkDevice (mCurFrameTimestamp d) (mCurrentFrame d) (mFrameU d) v (mState d)
           (mWorkerThread d) (mFrameWidth d) (mFrameHeight d) (mPixelFormat d)
           (mTotalPixels d) (mFrameBufferSize d).

Definition set_mState (v : EmulatedCameraDeviceState) (d : EmulatedCameraDevice) :=
  mkDevice (mCurFrameTimestamp d) (mCurrentFrame d) (mFrameU d) (mFrameV d) v
           (mWorkerThread d) (mFrameWidth d) (mFrameHeight d) (mPixelFormat d)
           (mTotalPixels d) (mFrameBufferSize d).

Definition set_mWorkerThread (v : option WorkerThread) (d : EmulatedCameraDevice) :=
  mkDevice (mCurFrameTimestamp d) (mCurrentFrame d) (mFrameU d) (mFrameV d)
           (mState d) v (mFrameWidth d) (mFrameHeight d) (mPixelFormat d)
           (mTotalPixels d) (mFrameBufferSize d).

Definition set_mFrameWidth (v : Z) (d : EmulatedCameraDevice) :=
  mkDevice (mCurFrameTimestamp d) (mCurrentFrame d) (mFrameU d) (mFrameV d)
           (mState d) (mWorkerThread d) v (mFrameHeight d) (mPixelFormat d)
           (mTotalPixels d) (mFrameBufferSize d).

Definition set_mFrameHeight (v : Z) (d : EmulatedCameraDevice) :=
  mkDevice (mCurFrameTimestamp d) (mCurrentFrame d) (mFrameU d) (mFrameV d)
           (mState d) (mWorkerThread d) (mFrameWidth d) v (mPixelFormat d)
           (mTotalPixels d) (mFrameBufferSize d).

Definition set_mPixelFormat (v : Z) (d : EmulatedCameraDevice) :=
  mkDevice (mCurFrameTimestamp d) (mCurrentFrame d) (mFrameU d) (mFrameV d)
           (mState d) (mWorkerThread d) (mFrameWidth d) (mFrameHeight d) v
           (mTotalPixels d) (mFrameBufferSize d).

Definition set_mTotalPixels (v : Z) (d : EmulatedCameraDevice) :=
  mkDevice (mCurFrameTimestamp d) (mCurrentFrame d) (mFrameU d) (mFrameV d)
           (mState d) (mWorkerThread d) (mFrameWidth d) (mFrameHeight d)
           (mPixelFormat d) v (mFrameBufferSize d).

Definition set_mFrameBufferSize (v : Z) (d : EmulatedCameraDevice) :=
  mkDevice (mCurFrameTimestamp d) (mCurrentFrame d) (mFrameU d) (mFrameV d)
           (mState d) (mWorkerThread d) (mFrameWidth d) (mFrameHeight d)
           (mPixelFormat d) (mTotalPixels d) v.

(** The constructor initialises [mCurFrameTimestamp], [mCurrentFrame] and
    [mState]; [mWorkerThread] is a null strong pointer; the remaining fields
    keep whatever [garbage] the storage held. *)
Definition EmulatedCameraDevice_new (garbage : EmulatedCameraDevice)
  : EmulatedCameraDevice :=
  {| mCurFrameTimestamp := 0;
     mCurrentFrame := None;
     mFrameU := mFrameU garbage;
     mFrameV := mFrameV garbage;
     mState := ECDS_CONSTRUCTED;
     mWorkerThread := None;
     mFrameWidth := mFrameWidth garbage;
     mFrameHeight := mFrameHeight garbage;
     mPixelFormat := mPixelFormat garbage;
     mTotalPixels := mTotalPixels garbage;
     mFrameBufferSize := mFrameBufferSize garbage |}.

Definition state_eqb (a b : EmulatedCameraDeviceState) : bool :=
  match a, b with
  | ECDS_CONSTRUCTED, ECDS_CONSTRUCTED
  | ECDS_INITIALIZED, ECDS_INITIALIZED
  | ECDS_STARTED, ECDS_STARTED
  | ECDS_STOPPED, ECDS_STOPPED => true
  | _, _ => false
  end.

(** Modelled from the spec: [isInitialized], [isCapturing] and
    [getWorkerThread] are inline members of the missing header.  The device
    is initialized once it has left the constructed state, and capturing is
    the started sub-state layered on top of it. *)
Definition isInitialized (d : EmulatedCameraDevice) : bool :=
  negb (state_eqb (mState d) ECDS_CONSTRUCTED).

Definition isCapturing (d : EmulatedCameraDevice) : bool :=
  state_eqb (mState d) ECDS_STARTED.

Definition getWorkerThread (d : EmulatedCameraDevice) : option WorkerThread :=
  mWorkerThread d.

(** The pure virtual hooks a concrete camera supplies.  They are member
    functions, so they see and may change the whole object and the world. *)
Class DeviceHooks := {
  startDevice : EmulatedCameraDevice -> World ->
                status_t * EmulatedCameraDevice * World;
  stopDevice : EmulatedCameraDevice -> World ->
               status_t * EmulatedCameraDevice * World
}.

(** ** Emulated camera device public API *)

Definition Initialize (wt_ok : bool) (d : EmulatedCameraDevice) (w : World)
  : status_t * EmulatedCameraDevice * World :=
  if isInitialized d then (NO_ERROR, d, w)
  else
    (* Instantiate worker thread object. *)
    let w := emit (EvNewWorkerThread wt_ok) w in
    let d := set_mWorkerThread (if wt_ok then Some WorkerThread_new else None) d in
    match getWorkerThread d with
    | None => (ENOMEM, d, w)
    | Some _ => (NO_ERROR, set_mState ECDS_INITIALIZED d, w)
    end.

Definition startCapturing `{DeviceHooks} (o : alloc_oracle)
    (width height pix_fmt : Z) (d : EmulatedCameraDevice) (w : World)
  : status_t * EmulatedCameraDevice * World :=
  (* Validate pixel format, and calculate framebuffer size at the same time. *)
  if pix_fmt =? V4L2_PIX_FMT_YVU420 then
    let d := set_mFrameBufferSize
               (int_div (int_mul (int_mul width height) 12) 8) d in
    (* Cache framebuffer info. *)
    let d := set_mFrameWidth width d in
    let d := set_mFrameHeight height d in
    let d := set_mPixelFormat pix_fmt d in
    let d := set_mTotalPixels (int_mul width height) d in
    (* Allocate framebuffer. *)
    let '(p, w) := new_uint8_array o (mFrameBufferSize d) w in
    let d := set_mCurrentFrame p d in
    match p with
    | None => (ENOMEM, d, w)
    | Some b =>
        (* Calculate U/V panes inside the framebuffer. *)
        let u := ptr_add (mkPtr b 0) (mTotalPixels d) in
        let d := set_mFrameU (Some u) d in
        let d := set_mFrameV (Some (ptr_add u (int_div (mTotalPixels d) 4))) d in
        (* Start the camera. *)
        let '(res, d, w) := startDevice d w in
        if res =? NO_ERROR then (res, d, w)
        else
          (res, set_mCurrentFrame None d,
           match mCurrentFrame d with
           | Some b' => delete_array b' w
           | None => w
           end)
    end
  else (EINVAL, d, w).

Definition stopCapturing `{DeviceHooks} (d : EmulatedCameraDevice) (w : World)
  : status_t * EmulatedCameraDevice * World :=
  (* Stop the camera. *)
  let '(res, d, w) := stopDevice d w in
  if res =? NO_ERROR then
    (* Release resources allocated for capturing. *)
    match mCurrentFrame d with
    | Some b => (res, set_mCurrentFrame None d, delete_array b w)
    | None => (res, d, w)
    end
  else (res, d, w).

(** [buffer] is the memory behind the caller's pointer; the last component
    of the result is that memory after the call.  [None] is undefined
    behaviour: a dangling [mCurrentFrame] or a copy past either region. *)
Definition getCurrentFrame (d : EmulatedCameraDevice) (w : World)
    (buffer : list byte)
  : option (status_t * EmulatedCameraDevice * World * list byte) :=
  match isCapturing d, mCurrentFrame d with
  | true, Some b =>
      src ← heap w !! b;
      out ← memcpy buffer src (mFrameBufferSize d);
      Some (NO_ERROR, d, w, out)
  | _, _ => Some (EINVAL, d, w, buffer)
  end.

(** ** Worker thread implementation *)

(** What [pipe(thread_fds)] answers: two fresh descriptors (descriptors are
    never negative), or a failure with its [errno]. *)
Inductive pipe_oracle :=
| PipeGives (read_end write_end : N)
| PipeFails (errno : Z).

Definition readyToRun (o : pipe_oracle) (wt : WorkerThread) (w : World)
  : status_t * WorkerThread * World :=
  (* Create a pair of FDs that would be used to control the thread. *)
  match o with
  | PipeGives r wr =>
      let thread_fds0 := Z.of_N r in
      let thread_fds1 := Z.of_N wr in
      (NO_ERROR,
       {| mThreadControl := thread_fds1; mControlFD := thread_fds0 |},
       emit (EvPipe (Some (thread_fds0, thread_fds1)))
            (set_fdtable ({[thread_fds0; thread_fds1]} ∪ fdtable w) w))
  | PipeFails errno => (errno, wt, emit (EvPipe None) w)
  end.

(** Modelled from the spec: [startThread] is an inline member of the missing
    header.  It creates the signaling endpoint pair before entering the
    loop, a failure to create the pair is reported and aborts the start,
    and otherwise the loop is spawned on a separate thread of control. *)
Definition startThread (o : pipe_oracle) (wt : WorkerThread) (w : World)
  : status_t * WorkerThread * World :=
  let '(res, wt, w) := readyToRun o wt w in
  if res =? NO_ERROR then (res, wt, emit EvSpawn w) else (res, wt, w).

(** What the environment answers during one [stopThread]: the result of the
    [write] (after [TEMP_FAILURE_RETRY]) with the [errno] it leaves, and the
    result of [requestExitAndWait]. *)
Record stop_oracle := mkStopOracle {
  write_ret : Z;
  write_errno : Z;
  join_ret : status_t
}.

Definition close (fd : Z) (w : World) : World :=
  emit (EvClose fd) (set_fdtable (fdtable w ∖ {[fd]}) w).

Definition stopThread (o : stop_oracle) (wt : WorkerThread) (w : World)
  : status_t * WorkerThread * World :=
  if 0 <=? mThreadControl wt then
    (* Send "stop" message to the thread loop. *)
    let msg := THREAD_STOP in
    let wres := write_ret o in
    let w := emit (EvWrite (mThreadControl wt) msg wres) w in
    if wres =? sizeof_ControlMessage then
      (* Stop the thread, and wait till it's terminated. *)
      let res := join_ret o in
      let w := emit (EvJoin res) w in
      if res =? NO_ERROR then
        (* Close control FDs. *)
        let '(wt, w) :=
          if 0 <=? mThreadControl wt
          then ({| mThreadControl := -1; mControlFD := mControlFD wt |},
                close (mThreadControl wt) w)
          else (wt, w) in
        let '(wt, w) :=
          if 0 <=? mControlFD wt
          then ({| mThreadControl := mThreadControl wt; mControlFD := -1 |},
                close (mControlFD wt) w)
          else (wt, w) in
        (res, wt, w)
      else (res, wt, w)
    else
      ((if write_errno o =? 0 then EINVAL else write_errno o), wt, w)
  else (EINVAL, wt, w).

(** ** Worker thread management *)

(** [None] is the dereference of a null [getWorkerThread()]. *)
Definition startWorkerThread (o : pipe_oracle) (d : EmulatedCameraDevice)
    (w : World) : option (status_t * EmulatedCameraDevice * World) :=
  if negb (isInitialized d) then Some (EINVAL, d, w)
  else
    wt ← getWorkerThread d;
    let '(ret, wt, w) := startThread o wt w in
    Some (ret, set_mWorkerThread (Some wt) d, w).

Definition stopWorkerThread (o : stop_oracle) (d : EmulatedCameraDevice)
    (w : World) : option (status_t * EmulatedCameraDevice * World) :=
  if negb (isInitialized d) then Some (EINVAL, d, w)
  else
    wt ← getWorkerThread d;
    let '(_, wt, w) := stopThread o wt w in
    Some (NO_ERROR, set_mWorkerThread (Some wt) d, w).

(** ** The readiness wait *)

Record timeval := mkTimeval { tv_sec : Z; tv_usec : Z }.

(** What the kernel knows during one [Select]: for every descriptor the
    time in microseconds after which it becomes readable ([None]: never),
    a failure of [select] other than [EINTR] if there is one, and what the
    [read] of the control message returns and stores. *)
Record select_oracle := mkSelectOracle {
  readable_after : Z -> option N;
  select_fault : option Z;
  read_ret : Z;
  read_msg : Z
}.

Definition earlier (a b : option N) : option N :=
  match a, b with
  | Some x, Some y => Some (N.min x y)
  | Some x, None => Some x
  | None, b => b
  end.

(** The first moment at which one of the descriptors [l] is readable. *)
Definition first_ready (o : select_oracle) (l : list Z) : option N :=
  foldr (fun fd acc => earlier (readable_after o fd) acc) None l.

Definition readable_by (o : select_oracle) (t : N) (fd : Z) : bool :=
  match readable_after o fd with
  | Some t' => (t' <=? t)%N
  | None => false
  end.

(** [select(nfds, fds, NULL, NULL, tvp)] of POSIX, retried on [EINTR]: the
    value returned and the set left in [fds]; [None] when the call never
    returns.  Only descriptors below [nfds] are examined; a closed
    descriptor among them or a malformed timeout is an error; with a null
    [tvp] the call waits without limit, otherwise it returns 0 once the
    timeout has elapsed with nothing readable. *)
Definition sys_select (o : select_oracle) (w : World) (nfds : Z)
    (fds : gset Z) (tvp : option timeval) : option (Z * gset Z) :=
  let watched := filter (fun fd => fd < nfds) fds in
  let bad_timeout :=
    match tvp with
    | Some tv => (tv_sec tv <? 0) || (tv_usec tv <? 0)
    | None => false
    end in
  if bool_decide (is_Some (select_fault o)) || bad_timeout
     || negb (bool_decide (watched ⊆ fdtable w))
  then Some (-1, fds)
  else
    let expired t :=
      match tvp with
      | Some tv => tv_sec tv * 1000000 + tv_usec tv <? Z.of_N t
      | None => false
      end in
    match first_ready o (elements watched) with
    | Some t =>
        if expired t then Some (0, ∅)
        else
          let ready := filter (fun fd => readable_by o t fd = true) watched in
          Some (Z.of_nat (size ready), ready)
    | None =>
        match tvp with
        | Some _ => Some (0, ∅)
        | None => None
        end
    end.

(** The first half of [Select]: the descriptor set and the timeout are
    prepared and [select] is called.  A [timeout] of 0 leaves [tvp] null. *)
Definition Select_wait (o : select_oracle) (wt : WorkerThread)
    (fd timeout : Z) (w : World) : option (Z * gset Z) :=
  let fd_num := if 0 <=? fd then int_add (Z.max fd (mControlFD wt)) 1
                else int_add (mControlFD wt) 1 in
  let fds : gset Z := ∅ in
  let fds := {[mControlFD wt]} ∪ fds in
  let fds := if 0 <=? fd then {[fd]} ∪ fds else fds in
  let tvp :=
    if timeout =? 0 then None
    else Some {| tv_sec := int_div timeout 1000000;
                 tv_usec := int_rem timeout 1000000 |} in
  sys_select o w fd_num fds tvp.

(** [Select] returns [None] when the underlying wait never returns. *)
Definition Select (o : select_oracle) (wt : WorkerThread) (fd timeout : Z)
    (w : World) : option (SelectRes * World) :=
  '(res, fds) ← Select_wait o wt fd timeout w;
  if res <? 0 then Some (ERROR, w)
  else if res =? 0 then
    (* Timeout. *)
    Some (TIMEOUT, w)
  else if bool_decide (mControlFD wt ∈ fds) then
    (* A control event. Lets read the message. *)
    let res := read_ret o in
    let msg := read_msg o in
    let w := emit (EvRead (mControlFD wt) res) w in
    if negb (res =? sizeof_ControlMessage) then Some (ERROR, w)
    (* THREAD_STOP is the only message expected here. *)
    else if msg =? THREAD_STOP then Some (EXIT_THREAD, w)
    else Some (ERROR, w)
  else
    (* Must be an FD. *)
    Some (READY, w).

(** ** Observations used in the statements *)

(** The gate of [getCurrentFrame]: the device is capturing and a frame
    buffer is allocated. *)
Definition in_capturing_state (d : EmulatedCameraDevice) : bool :=
  isCapturing d && bool_decide (is_Some (mCurrentFrame d)).

Fixpoint count_events (f : event -> bool) (l : list event) : nat :=
  match l with
  | [] => O
  | e :: l => if f e then S (count_events f l) else count_events f l
  end.

Definition is_controller_creation (e : event) : bool :=
  match e with EvNewWorkerThread true => true | _ => false end.

Definition is_join (e : event) : bool :=
  match e with EvJoin _ => true | _ => false end.

Definition is_close (e : event) : bool :=
  match e with EvClose _ => true | _ => false end.


Definition is_allocation (e : event) : bool :=
  match e with EvNewArray _ _ => true | _ => false end.

(** Worker thread controller objects created so far. *)
Definition controllers_created (w : World) : nat :=
  count_events is_controller_creation (log w).

Definition endpoint_open (fd : Z) : bool := 0 <=? fd.

(** Both signaling endpoints are open, or both are closed. *)
Definition endpoints_consistent (wt : WorkerThread) : bool :=
  Bool.eqb (endpoint_open (mThreadControl wt)) (endpoint_open (mControlFD wt)).

(** A history of calls on one worker thread object, each with what the
    environment answered: [readyToRun] on its own, [startThread], and
    [stopThread]. *)
Inductive thread_op :=
| OpReady (o : pipe_oracle)
| OpStart (o : pipe_oracle)
| OpStop (o : stop_oracle).

Definition run_op (op : thread_op) (s : WorkerThread * World)
  : WorkerThread * World :=
  match op with
  | OpReady o => let r := readyToRun o s.1 s.2 in (r.1.2, r.2)
  | OpStart o => let r := startThread o s.1 s.2 in (r.1.2, r.2)
  | OpStop o => let r := stopThread o s.1 s.2 in (r.1.2, r.2)
  end.

Fixpoint run_ops (ops : list thread_op) (s : WorkerThread * World)
  : WorkerThread * World :=
  match ops with
  | [] => s
  | op :: ops => run_ops ops (run_op op s)
  end.

(** The device once [startCapturing] has cached the frame info (source
    lines 84 to 97), and once the allocated block [b] and the two chroma
    planes are recorded (lines 100 to 107): the object the start hook sees. *)
Definition frame_info_cached (width height pix_fmt : Z)
    (d : EmulatedCameraDevice) : EmulatedCameraDevice :=
  set_mTotalPixels (int_mul width height)
    (set_mPixelFormat pix_fmt
      (set_mFrameHeight height
        (set_mFrameWidth width
          (set_mFrameBufferSize
             (int_div (int_mul (int_mul width height) 12) 8) d)))).

Definition frame_attached (b : block) (d : EmulatedCameraDevice)
  : EmulatedCameraDevice :=
  let u := ptr_add (mkPtr b 0) (mTotalPixels d) in
  set_mFrameV (Some (ptr_add u (int_div (mTotalPixels d) 4)))
    (set_mFrameU (Some u) (set_mCurrentFrame (Some b) d)).

(** The start hook leaves the frame buffer and its layout alone. *)
Definition start_hook_keeps_layout `{DeviceHooks} : Prop :=
  forall d w,
    let d' := (startDevice d w).1.2 in
    mCurrentFrame d' = mCurrentFrame d /\
    mFrameBufferSize d' = mFrameBufferSize d /\
    mFrameU d' = mFrameU d /\
    mFrameV d' = mFrameV d.

(** The start hook leaves the heap alone. *)
Definition start_hook_keeps_heap `{DeviceHooks} : Prop :=
  forall d w, heap (startDevice d w).2 = heap w.

(** The frame buffer of the device, when there is one, is a live block of
    [mFrameBufferSize] bytes. *)
Definition frame_wf (d : EmulatedCameraDevice) (w : World) : Prop :=
  forall b, mCurrentFrame d = Some b ->
    exists content, heap w !! b = Some content /\
                    Z.of_nat (length content) = mFrameBufferSize d.

(** ** Sample instances, used to run the model on concrete inputs *)

Module Sample.

(** A camera whose hooks keep the lifecycle state: start is legal on an
    initialized device that is not capturing, stop on a capturing one. *)
Definition checked_hooks : DeviceHooks := {|
  startDevice d w :=
    if isInitialized d && negb (isCapturing d)
    then (NO_ERROR, set_mState ECDS_STARTED d, w)
    else (EINVAL, d, w);
  stopDevice d w :=
    if isCapturing d
    then (NO_ERROR, set_mState ECDS_STOPPED d, w)
    else (EINVAL, d, w)
|}.

(** A camera whose hooks always fail with [e] and touch nothing. *)
Definition failing_hooks (e : status_t) : DeviceHooks := {|
  startDevice d w := (e, d, w);
  stopDevice d w := (e, d, w)
|}.

Definition world0 : World := {| heap := ∅; fdtable := ∅; log := [] |}.

Definition garbage : EmulatedCameraDevice :=
  mkDevice 7 (Some 9%positive) None None ECDS_STARTED None 1 2 3 4 5.

(** A freshly constructed device. *)
Definition constructed : EmulatedCameraDevice := EmulatedCameraDevice_new garbage.

(** The device after a successful [Initialize]. *)
Definition initialized : EmulatedCameraDevice := (Initialize true constructed world0).1.2.

Definition world1 : World := (Initialize true constructed world0).2.

(** The device capturing 4x2 frames (12 bytes), and the world it lives in. *)
Definition capturing : EmulatedCameraDevice :=
  (@startCapturing checked_hooks (AllocGives [x01; x02; x03]) 4 2
     V4L2_PIX_FMT_YVU420 initialized world1).1.2.

Definition world2 : World :=
  (@startCapturing checked_hooks (AllocGives [x01; x02; x03]) 4 2
     V4L2_PIX_FMT_YVU420 initialized world1).2.

(** The device after that capture was stopped. *)
Definition stopped : EmulatedCameraDevice :=
  (@stopCapturing checked_hooks capturing world2).1.2.

Definition world3 : World :=
  (@stopCapturing checked_hooks capturing world2).2.

(** A started worker thread with control pipe (4, 5). *)
Definition started_thread : WorkerThread :=
  (startThread (PipeGives 4 5) WorkerThread_new world0).1.2.

Definition world_thread : World :=
  (startThread (PipeGives 4 5) WorkerThread_new world0).2.

(** The control pipe becomes readable after 10 microseconds, a data
    descriptor 7 after 500; the control message read is [THREAD_STOP]. *)
Definition stop_pending : select_oracle := {|
  readable_after fd :=
    if fd =? 4 then Some 10%N else if fd =? 7 then Some 500%N else None;
  select_fault := None;
  read_ret := 4;
  read_msg := THREAD_STOP
|}.

(** Nothing ever becomes readable. *)
Definition idle : select_oracle := {|
  readable_after fd := None;
  select_fault := None;
  read_ret := -1;
  read_msg := 0
|}.

End Sample.

(** ** Further members of the class *)


(** [YV12ToRGB32(yv12, rgb, width, height)] is declared in Converters.h,
    which is not part of the sources: it is a parameter.  It is given the
    bytes behind the two pointers and the dimensions and yields the bytes
    behind [rgb] after the conversion, or [None] when it would leave either
    region. *)
Class Converters := {
  YV12ToRGB32 : list byte -> list byte -> Z -> Z -> option (list byte)
}.

Definition getCurrentPreviewFrame `{Converters} (d : EmulatedCameraDevice)
    (w : World) (buffer : list byte)
  : option (status_t * EmulatedCameraDevice * World * list byte) :=
  match isCapturing d, mCurrentFrame d with
  | true, Some b =>
      (* In emulation the framebuffer is never RGB. *)
      if mPixelFormat d =? V4L2_PIX_FMT_YVU420 then
        src ← heap w !! b;
        out ← YV12ToRGB32 src buffer (mFrameWidth d) (mFrameHeight d);
        Some (NO_ERROR, d, w, out)
      else Some (EINVAL, d, w, buffer)
  | _, _ => Some (EINVAL, d, w, buffer)
  end.

(** This will end the thread loop, and will terminate the thread. *)
Definition inWorkerThread (d : EmulatedCameraDevice) : bool := false.

(** The [timeval] that [Select] hands to [select] (source lines 296 to
    300): null for a [timeout] of 0. *)
Definition Select_timeval (timeout : Z) : option timeval :=
  if timeout =? 0 then None
  else Some {| tv_sec := int_div timeout 1000000;
               tv_usec := int_rem timeout 1000000 |}.

Definition is_write (e : event) : bool :=
  match e with EvWrite _ _ _ => true | _ => false end.

(** The endpoints the thread object holds, when open, are open descriptors
    of the process. *)
Definition endpoints_valid (wt : WorkerThread) (w : World) : Prop :=
  endpoint_open (mThreadControl wt) = true ->
  mThreadControl wt ∈ fdtable w /\ mControlFD wt ∈ fdtable w.

(** ** Histories of calls on one device *)

(** A hook that stays within its remit: it leaves the frame buffer pointer,
    the cached byte size and pixel format, the worker thread object and the
    heap alone, and does not move the device into or out of the
    constructed state. *)
Definition hook_respects_base
    (hook : EmulatedCameraDevice -> World ->
            status_t * EmulatedCameraDevice * World) : Prop :=
  forall d w,
    mCurrentFrame (hook d w).1.2 = mCurrentFrame d /\
    mFrameBufferSize (hook d w).1.2 = mFrameBufferSize d /\
    mPixelFormat (hook d w).1.2 = mPixelFormat d /\
    mWorkerThread (hook d w).1.2 = mWorkerThread d /\
    isInitialized (hook d w).1.2 = isInitialized d /\
    heap (hook d w).2 = heap w.

Definition hooks_respect_base `{DeviceHooks} : Prop :=
  hook_respects_base startDevice /\ hook_respects_base stopDevice.

(** One call of the public API that changes the device, with what the
    environment answered. *)
Inductive api_call :=
| CallInitialize (wt_ok : bool)
| CallStartCapturing (o : alloc_oracle) (width height pix_fmt : Z)
| CallStopCapturing
| CallStartWorkerThread (o : pipe_oracle)
| CallStopWorkerThread (o : stop_oracle).

(** [None] when the call dereferences a null worker thread. *)
Definition run_call `{DeviceHooks} (c : api_call)
    (s : EmulatedCameraDevice * World)
  : option (EmulatedCameraDevice * World) :=
  match c with
  | CallInitialize ok =>
      let r := Initialize ok s.1 s.2 in Some (r.1.2, r.2)
  | CallStartCapturing o width height pix_fmt =>
      let r := startCapturing o width height pix_fmt s.1 s.2 in
      Some (r.1.2, r.2)
  | CallStopCapturing =>
      let r := stopCapturing s.1 s.2 in Some (r.1.2, r.2)
  | CallStartWorkerThread o =>
      r ← startWorkerThread o s.1 s.2; Some (r.1.2, r.2)
  | CallStopWorkerThread o =>
      r ← stopWorkerThread o s.1 s.2; Some (r.1.2, r.2)
  end.

Fixpoint run_calls `{DeviceHooks} (cs : list api_call)
    (s : EmulatedCameraDevice * World)
  : option (EmulatedCameraDevice * World) :=
  match cs with
  | [] => Some s
  | c :: cs => s' ← run_call c s; run_calls cs s'
  end.

(** The worker thread object exists once the device is initialized, and its
    endpoints are both open or both closed. *)
Definition worker_wf (d : EmulatedCameraDevice) : Prop :=
  isInitialized d = true ->
  exists wt, mWorkerThread d = Some wt /\ endpoints_consistent wt = true.

Definition device_wf (d : EmulatedCameraDevice) (w : World) : Prop :=
  worker_wf d /\ frame_wf d w.

(** A converter that copies the luma plane and pads, standing in for the
    real one when the model is run. *)
Module SampleMore.

Definition luma_converter : Converters := {|
  YV12ToRGB32 yv12 rgb width height :=
    if Z.of_nat (length yv12) <? width * height then None
    else Some (take (Z.to_nat (width * height)) yv12
               ++ drop (Z.to_nat (width * height)) rgb)
|}.


Definition calls : list api_call :=
  [CallStartWorkerThread (PipeGives 4 5);
   CallInitialize false;
   CallInitialize true;
   CallStartCapturing (AllocGives []) 4 2 V4L2_PIX_FMT_YVU420;
   CallStartWorkerThread (PipeGives 4 5);
   CallStopCapturing;
   CallStopWorkerThread (mkStopOracle 4 0 NO_ERROR)].

End SampleMore.

(** * Properties *)

(** ** C integers *)

Lemma wrap_int_id z : INT_MIN <= z <= INT_MAX -> wrap_int z = z.
Proof.
  unfold INT_MIN, INT_MAX, wrap_int. intros Hz.
  rewrite Z.mod_small; lia.
Qed.

Lemma quot_between a b :
  0 < b -> Z.min a 0 <= Z.quot a b <= Z.max a 0.
Proof.
  intros Hb. destruct (Z.le_gt_cases 0 a) as [Ha | Ha].
  - rewrite Z.quot_div_nonneg by lia.
    pose proof (Z.div_pos a b Ha Hb).
    assert (a / b <= a) by (apply Z.div_le_upper_bound; nia).
    lia.
  - assert (Hq : Z.quot a b = - Z.quot (- a) b).
    { rewrite Z.quot_opp_l by lia. lia. }
    rewrite Hq, Z.quot_div_nonneg by lia.
    assert (0 <= - a / b) by (apply Z.div_pos; lia).
    assert (- a / b <= - a) by (apply Z.div_le_upper_bound; nia).
    lia.
Qed.

Lemma int_div_exact a b :
  INT_MIN <= a <= INT_MAX -> 0 < b -> int_div a b = Z.quot a b.
Proof.
  intros Ha Hb. unfold int_div. apply wrap_int_id.
  pose proof (quot_between a b Hb) as Hq. unfold INT_MIN, INT_MAX in *.
  generalize dependent (Z.quot a b). intros q Hq. lia.
Qed.

Lemma int_mul_exact a b :
  INT_MIN <= a * b <= INT_MAX -> int_mul a b = a * b.
Proof. apply wrap_int_id. Qed.

(** ** Frame buffer layout *)

(** The byte size and the plane offsets [startCapturing] computes when no
    product leaves the range of [int]. *)
Lemma frame_size_exact width height :
  INT_MIN <= width * height * 12 <= INT_MAX ->
  int_mul width height = width * height /\
  int_div (int_mul (int_mul width height) 12) 8 = Z.quot (width * height * 12) 8.
Proof.
  intros Hr.
  assert (Hwh : INT_MIN <= width * height <= INT_MAX)
    by (unfold INT_MIN, INT_MAX in *; lia).
  rewrite (int_mul_exact width height Hwh).
  rewrite (int_mul_exact (width * height) 12 Hr).
  split; [reflexivity | apply int_div_exact; [exact Hr | lia]].
Qed.

Lemma new_uint8_array_Some o n w b w' :
  new_uint8_array o n w = (Some b, w') ->
  0 <= n /\ heap w !! b = None /\
  exists content, heap w' = <[b := content]> (heap w) /\
                  Z.of_nat (length content) = n /\
                  fdtable w' = fdtable w /\
                  log w' = EvNewArray n (Some b) :: log w.
Proof.
  unfold new_uint8_array. destruct o as [| junk]; [discriminate |].
  destruct (0 <=? n) eqn:Hn; [| discriminate].
  intros Heq. injection Heq as <- <-. apply Z.leb_le in Hn.
  split; [exact Hn |]. split.
  - apply not_elem_of_dom. apply is_fresh.
  - eexists. split; [reflexivity |]. split; [| split; reflexivity].
    rewrite length_resize. lia.
Qed.

Lemma new_uint8_array_None o n w w' :
  new_uint8_array o n w = (None, w') ->
  heap w' = heap w /\ fdtable w' = fdtable w /\
  log w' = EvNewArray n None :: log w.
Proof.
  unfold new_uint8_array. destruct o as [| junk].
  - intros Heq. injection Heq as <-. auto.
  - destruct (0 <=? n); [discriminate |].
    intros Heq. injection Heq as <-. auto.
Qed.

(** [startCapturing] on the supported format, by the outcome of the
    allocation and of the start hook. *)
Lemma startCapturing_unfold `{DeviceHooks} o width height d w :
  startCapturing o width height V4L2_PIX_FMT_YVU420 d w =
  let c := frame_info_cached width height V4L2_PIX_FMT_YVU420 d in
  match new_uint8_array o (mFrameBufferSize c) w with
  | (None, w1) => (ENOMEM, set_mCurrentFrame None c, w1)
  | (Some b, w1) =>
      let r := startDevice (frame_attached b c) w1 in
      if r.1.1 =? NO_ERROR then r
      else (r.1.1, set_mCurrentFrame None r.1.2,
            match mCurrentFrame r.1.2 with
            | Some b' => delete_array b' r.2
            | None => r.2
            end)
  end.
Proof.
  unfold startCapturing. rewrite Z.eqb_refl. cbv zeta.
  fold (frame_info_cached width height V4L2_PIX_FMT_YVU420 d).
  generalize (frame_info_cached width height V4L2_PIX_FMT_YVU420 d) as c.
  intros c.
  destruct (new_uint8_array o _ w) as [[b |] w1]; [| reflexivity].
  unfold frame_attached.
  cbn [mTotalPixels set_mCurrentFrame set_mFrameU].
  destruct (startDevice _ w1) as [[res d2] w2]. reflexivity.
Qed.

(** C7 (amended): when [startCapturing] accepts a width and a height in the
    planar YUV 4:2:0 format and [width * height * 12] fits a 32-bit [int],
    the byte size is [width * height * 12 / 8], the first chroma plane
    starts [width * height] bytes into the frame buffer and the second one
    at [width * height + width * height / 4]. *)
Theorem startCapturing_layout `{DeviceHooks} o width height d w :
  start_hook_keeps_layout ->
  INT_MIN <= width * height * 12 <= INT_MAX ->
  (startCapturing o width height V4L2_PIX_FMT_YVU420 d w).1.1 = NO_ERROR ->
  let d' := (startCapturing o width height V4L2_PIX_FMT_YVU420 d w).1.2 in
  mFrameBufferSize d' = width * height * 12 / 8 /\
  exists b,
    mCurrentFrame d' = Some b /\
    mFrameU d' = Some (mkPtr b (width * height)) /\
    mFrameV d' = Some (mkPtr b (width * height + width * height / 4)).
Proof.
  intros Hkeep Hr. rewrite startCapturing_unfold. cbv zeta.
  destruct (frame_size_exact width height Hr) as [Hpix Hsize].
  assert (Hcs : mFrameBufferSize
                  (frame_info_cached width height V4L2_PIX_FMT_YVU420 d)
                = Z.quot (width * height * 12) 8) by exact Hsize.
  assert (Hcp : mTotalPixels
                  (frame_info_cached width height V4L2_PIX_FMT_YVU420 d)
                = width * height) by exact Hpix.
  revert Hcs Hcp.
  generalize (frame_info_cached width height V4L2_PIX_FMT_YVU420 d) as c.
  intros c Hcs Hcp.
  destruct (new_uint8_array o _ w) as [[b |] w1] eqn:Halloc;
    [| cbn; discriminate].
  apply new_uint8_array_Some in Halloc as [Hnn _]. rewrite Hcs in Hnn.
  assert (Hwh : 0 <= width * height).
  { destruct (Z.le_gt_cases 0 (width * height)) as [|Hneg]; [assumption |].
    exfalso.
    assert (Hq : Z.quot (width * height * 12) 8
                 = - Z.quot (- (width * height * 12)) 8)
      by (rewrite Z.quot_opp_l by lia; lia).
    rewrite Hq, Z.quot_div_nonneg in Hnn by lia.
    assert (1 <= - (width * height * 12) / 8)
      by (apply Z.div_le_lower_bound; lia).
    lia. }
  assert (Hin : INT_MIN <= width * height <= INT_MAX)
    by (clear Hnn; unfold INT_MIN, INT_MAX in *; lia).
  pose proof (Hkeep (frame_attached b c) w1) as Hk.
  destruct (startDevice (frame_attached b c) w1) as [[res d2] w2].
  unfold frame_attached in Hk.
  cbn [fst snd mCurrentFrame mFrameBufferSize mFrameU mFrameV mTotalPixels
       set_mFrameV set_mFrameU set_mCurrentFrame] in Hk.
  destruct Hk as (Hcur & Hsz & Hu & Hv).
  cbn [fst snd]. destruct (res =? NO_ERROR) eqn:Hres.
  - intros _. cbn [fst snd]. rewrite Hcur, Hsz, Hu, Hv, Hcs, Hcp.
    rewrite (int_div_exact _ 4 Hin) by lia.
    rewrite !Z.quot_div_nonneg by lia.
    split; [reflexivity |].
    exists b. unfold ptr_add; cbn [p_block p_off]. rewrite !Z.add_0_l. auto.
  - cbn [fst snd]. intros Hres'. apply Z.eqb_neq in Hres. contradiction.
Qed.

Lemma startCapturing_layout_witness :
  (INT_MIN <= 176 * 144 * 12 <= INT_MAX) /\
  let d' := (@startCapturing Sample.checked_hooks (AllocGives []) 176 144
               V4L2_PIX_FMT_YVU420 Sample.initialized Sample.world1).1.2 in
  mFrameBufferSize d' = 176 * 144 * 12 / 8 /\
  exists b,
    mCurrentFrame d' = Some b /\
    mFrameU d' = Some (mkPtr b (176 * 144)) /\
    mFrameV d' = Some (mkPtr b (176 * 144 + 176 * 144 / 4)).
Proof.
  split; [unfold INT_MIN, INT_MAX; lia |].
  apply (@startCapturing_layout Sample.checked_hooks).
  - intros d w. cbn.
    destruct (isInitialized d && negb (isCapturing d)); cbn; auto.
  - unfold INT_MIN, INT_MAX; lia.
  - vm_compute. reflexivity.
Defined.

(** C7, as stated, fails: 32768 x 32768 is accepted (the allocation of the
    wrapped size and the hook succeed), [32768 * 32768 * 12] is [3 * 2^32]
    and wraps to 0 in [int], so the byte size computed is 0 and the chroma
    plane at offset [2^30] lies outside the buffer. *)
Lemma startCapturing_layout_overflow :
  let r := @startCapturing Sample.checked_hooks (AllocGives []) 32768 32768
             V4L2_PIX_FMT_YVU420 Sample.initialized Sample.world1 in
  r.1.1 = NO_ERROR /\
  mFrameBufferSize r.1.2 = 0 /\
  mFrameBufferSize r.1.2 <> 32768 * 32768 * 12 / 8 /\
  mFrameU r.1.2 = Some (mkPtr 1%positive (2 ^ 30)).
Proof.
  vm_compute. repeat split; discriminate.
Qed.

(** ** Calls before [Initialize] *)

Lemma not_initialized_not_capturing d :
  isInitialized d = false -> isCapturing d = false.
Proof.
  unfold isInitialized, isCapturing. destruct (mState d); cbn; congruence.
Qed.

(** C1 (amended): [getCurrentFrame], [startWorkerThread] and
    [stopWorkerThread] invoked before [Initialize] has completed fail with
    [EINVAL] and have no effect at all: the device, the heap, the descriptor
    table and the log are as before, so nothing was allocated. *)
Theorem uninitialized_calls_rejected d w buffer po so :
  isInitialized d = false ->
  getCurrentFrame d w buffer = Some (EINVAL, d, w, buffer) /\
  startWorkerThread po d w = Some (EINVAL, d, w) /\
  stopWorkerThread so d w = Some (EINVAL, d, w).
Proof.
  intros Hinit. pose proof (not_initialized_not_capturing d Hinit) as Hcap.
  unfold getCurrentFrame, startWorkerThread, stopWorkerThread.
  rewrite Hinit, Hcap. cbn. auto.
Qed.

Lemma uninitialized_calls_rejected_witness :
  isInitialized Sample.constructed = false /\
  getCurrentFrame Sample.constructed Sample.world0 [x00; x00]
    = Some (EINVAL, Sample.constructed, Sample.world0, [x00; x00]) /\
  startWorkerThread (PipeGives 4 5) Sample.constructed Sample.world0
    = Some (EINVAL, Sample.constructed, Sample.world0) /\
  stopWorkerThread (mkStopOracle 4 0 NO_ERROR) Sample.constructed Sample.world0
    = Some (EINVAL, Sample.constructed, Sample.world0).
Proof.
  split; [reflexivity |].
  apply (uninitialized_calls_rejected Sample.constructed Sample.world0
           [x00; x00] (PipeGives 4 5) (mkStopOracle 4 0 NO_ERROR)).
  reflexivity.
Defined.

(** C1, as stated, fails for [startCapturing]: it has no initialization
    check.  On a freshly constructed device it caches the frame info and
    allocates the 38016-byte buffer before the hook is asked; with a hook
    that rejects the uninitialized device the call does return [EINVAL],
    but the allocation has happened and the cached width has changed; with
    a hook that accepts, the call succeeds and the buffer stays live. *)
Lemma startCapturing_before_Initialize :
  let r := @startCapturing Sample.checked_hooks (AllocGives []) 176 144
             V4L2_PIX_FMT_YVU420 Sample.constructed Sample.world0 in
  let r' := @startCapturing (Sample.failing_hooks NO_ERROR) (AllocGives [])
              176 144 V4L2_PIX_FMT_YVU420 Sample.constructed Sample.world0 in
  isInitialized Sample.constructed = false /\
  r.1.1 = EINVAL /\
  log r.2 = [EvDeleteArray 1%positive; EvNewArray 38016 (Some 1%positive)] /\
  count_events is_allocation (log r.2) = 1%nat /\
  mFrameWidth Sample.constructed = 1 /\ mFrameWidth r.1.2 = 176 /\
  r'.1.1 = NO_ERROR /\ mCurrentFrame r'.1.2 = Some 1%positive /\
  r'.1.2 <> Sample.constructed.
Proof.
  vm_compute. repeat split; discriminate.
Qed.

(** ** Failure of [startCapturing] *)




(** ** [stopCapturing] *)

(** C5: [stopCapturing] returns the status of the stop hook unchanged.  When
    the hook succeeds the frame buffer is freed and the device is no longer
    in the capturing state (capturing with a frame buffer allocated); when
    it fails nothing is done beyond what the hook did, so the buffer is
    retained and the capturing state is as the hook left it.  A buffer that
    is live after the hook is freed exactly when the hook succeeded.  The
    lifecycle field is never written by [stopCapturing] itself. *)
Theorem stopCapturing_spec `{DeviceHooks} d w :
  let h := stopDevice d w in
  let r := stopCapturing d w in
  r.1.1 = h.1.1 /\
  mState r.1.2 = mState h.1.2 /\
  (h.1.1 = NO_ERROR ->
   mCurrentFrame r.1.2 = None /\ in_capturing_state r.1.2 = false /\
   forall b, mCurrentFrame h.1.2 = Some b -> heap r.2 !! b = None) /\
  (h.1.1 <> NO_ERROR -> r = h) /\
  (forall b, mCurrentFrame h.1.2 = Some b -> is_Some (heap h.2 !! b) ->
     (heap r.2 !! b = None <-> h.1.1 = NO_ERROR)).
Proof.
  cbv zeta. unfold stopCapturing.
  destruct (stopDevice d w) as [[res d1] w1]. cbn [fst snd].
  destruct (res =? NO_ERROR) eqn:Hres.
  - apply Z.eqb_eq in Hres.
    destruct (mCurrentFrame d1) as [b |] eqn:Hcur; cbn [fst snd].
    + split; [reflexivity |]. split; [reflexivity |]. split; [| split].
      * intros _. split; [reflexivity |]. split.
        { unfold in_capturing_state. cbn. apply andb_false_r. }
        intros b' Hb'. injection Hb' as <-. cbn. apply lookup_delete_eq.
      * intros Hne. contradiction.
      * intros b' Hb' _. injection Hb' as <-. cbn.
        rewrite lookup_delete_eq. tauto.
    + split; [reflexivity |]. split; [reflexivity |]. split; [| split].
      * intros _. split; [exact Hcur |]. split; [| intros; discriminate].
        unfold in_capturing_state. rewrite Hcur. cbn. apply andb_false_r.
      * intros Hne. contradiction.
      * intros; discriminate.
  - apply Z.eqb_neq in Hres. cbn [fst snd].
    split; [reflexivity |]. split; [reflexivity |]. split; [| split].
    + intros Hz. contradiction.
    + reflexivity.
    + intros b Hb [content Hlive]. rewrite Hlive. split; [discriminate | contradiction].
Qed.

Lemma stopCapturing_spec_witness :
  (@stopCapturing Sample.checked_hooks Sample.capturing Sample.world2).1.1
    = NO_ERROR /\
  in_capturing_state Sample.capturing = true /\
  in_capturing_state
    (@stopCapturing Sample.checked_hooks Sample.capturing Sample.world2).1.2
    = false /\
  @stopCapturing (Sample.failing_hooks 5) Sample.capturing Sample.world2
    = (5, Sample.capturing, Sample.world2).
Proof.
  pose proof (@stopCapturing_spec Sample.checked_hooks Sample.capturing
                Sample.world2) as Hok.
  pose proof (@stopCapturing_spec (Sample.failing_hooks 5) Sample.capturing
                Sample.world2) as Hfail.
  cbv zeta in Hok, Hfail.
  destruct Hok as (Hst & _ & Hfree & _).
  destruct Hfail as (_ & _ & _ & Hkeep & _).
  split; [rewrite Hst; reflexivity |].
  split; [reflexivity |].
  split; [apply Hfree; reflexivity |].
  apply Hkeep. cbn. discriminate.
Defined.

(** ** [getCurrentFrame] *)

(** A successful [startCapturing] leaves a live frame buffer of the cached
    byte size, provided the hook does not interfere with it. *)
Lemma startCapturing_frame_wf `{DeviceHooks} o width height d w :
  start_hook_keeps_layout -> start_hook_keeps_heap ->
  (startCapturing o width height V4L2_PIX_FMT_YVU420 d w).1.1 = NO_ERROR ->
  frame_wf (startCapturing o width height V4L2_PIX_FMT_YVU420 d w).1.2
           (startCapturing o width height V4L2_PIX_FMT_YVU420 d w).2.
Proof.
  intros Hlayout Hheap. rewrite startCapturing_unfold. cbv zeta.
  generalize (frame_info_cached width height V4L2_PIX_FMT_YVU420 d) as c.
  intros c.
  destruct (new_uint8_array o _ w) as [[b |] w1] eqn:Halloc;
    [| cbn; discriminate].
  apply new_uint8_array_Some in Halloc
    as (_ & _ & content & Hw1 & Hlen & _).
  pose proof (Hlayout (frame_attached b c) w1) as (Hcur & Hsz & _).
  pose proof (Hheap (frame_attached b c) w1) as Hh.
  destruct (startDevice (frame_attached b c) w1) as [[res d2] w2].
  cbn [fst snd] in *. destruct (res =? NO_ERROR) eqn:Hres.
  - intros _ b' Hb'. cbn [fst snd] in *.
    rewrite Hcur in Hb'. injection Hb' as <-.
    exists content. rewrite Hh, Hw1, lookup_insert_eq, Hsz, Hlen. auto.
  - cbn [fst snd]. intros Hz. apply Z.eqb_neq in Hres. contradiction.
Qed.




(** ** [Initialize] *)

Lemma Initialize_noop ok d w :
  isInitialized d = true -> Initialize ok d w = (NO_ERROR, d, w).
Proof. intros Hinit. unfold Initialize. rewrite Hinit. reflexivity. Qed.

Lemma Initialize_success ok d w :
  isInitialized d = false ->
  (Initialize ok d w).1.1 = NO_ERROR ->
  ok = true /\
  isInitialized (Initialize ok d w).1.2 = true /\
  mWorkerThread (Initialize ok d w).1.2 = Some WorkerThread_new /\
  log (Initialize ok d w).2 = EvNewWorkerThread true :: log w.
Proof.
  intros Hinit. unfold Initialize. rewrite Hinit.
  destruct ok; cbn; [auto | discriminate].
Qed.

(** C9: [Initialize] on an initialized device changes nothing and returns
    [NO_ERROR]; and when a first call initializes the device, a second call
    is such a no-op, so that the two calls together create exactly one
    worker thread controller object. *)
Theorem Initialize_idempotent ok1 ok2 d w :
  isInitialized d = false ->
  (Initialize ok1 d w).1.1 = NO_ERROR ->
  let r1 := Initialize ok1 d w in
  let r2 := Initialize ok2 r1.1.2 r1.2 in
  r2 = (NO_ERROR, r1.1.2, r1.2) /\
  controllers_created r2.2 = S (controllers_created w).
Proof.
  intros Hinit Hok. cbv zeta.
  destruct (Initialize_success ok1 d w Hinit Hok) as (_ & Hinit1 & _ & Hlog).
  rewrite (Initialize_noop ok2 _ _ Hinit1). split; [reflexivity |].
  cbn [snd]. unfold controllers_created. rewrite Hlog. reflexivity.
Qed.

Lemma Initialize_idempotent_witness :
  isInitialized Sample.constructed = false /\
  (Initialize true Sample.constructed Sample.world0).1.1 = NO_ERROR /\
  Initialize true Sample.initialized Sample.world1
    = (NO_ERROR, Sample.initialized, Sample.world1) /\
  controllers_created
    (Initialize true Sample.initialized Sample.world1).2 = 1%nat.
Proof.
  split; [reflexivity |]. split; [reflexivity |].
  apply (Initialize_idempotent true true Sample.constructed Sample.world0);
    reflexivity.
Defined.

(** ** The signaling endpoints *)

Lemma readyToRun_consistent o wt w :
  endpoints_consistent wt = true ->
  endpoints_consistent (readyToRun o wt w).1.2 = true.
Proof.
  intros Hinv. destruct o as [r wr | errno]; cbn [readyToRun fst snd].
  - unfold endpoints_consistent, endpoint_open. cbn [mThreadControl mControlFD].
    replace (0 <=? Z.of_N wr) with true by (symmetry; apply Z.leb_le; lia).
    replace (0 <=? Z.of_N r) with true by (symmetry; apply Z.leb_le; lia).
    reflexivity.
  - exact Hinv.
Qed.

Lemma startThread_consistent o wt w :
  endpoints_consistent wt = true ->
  endpoints_consistent (startThread o wt w).1.2 = true.
Proof.
  intros Hinv. unfold startThread.
  pose proof (readyToRun_consistent o wt w Hinv) as Hr.
  destruct (readyToRun o wt w) as [[res wt'] w'].
  destruct (res =? NO_ERROR); exact Hr.
Qed.

Lemma close_not_open fd w : fd ∉ fdtable (close fd w).
Proof.
  cbn. intros Hin. apply elem_of_difference in Hin as [_ Hn].
  apply Hn, elem_of_singleton. reflexivity.
Qed.

Lemma close_keeps_closed fd fd' w :
  fd ∉ fdtable w -> fd ∉ fdtable (close fd' w).
Proof.
  cbn. intros Hn Hin. apply elem_of_difference in Hin as [Hin _]. auto.
Qed.

(** [stopThread], by the answers of the environment. *)
Lemma stopThread_cases o wt w :
  let r := stopThread o wt w in
  (r.1.1 = NO_ERROR /\
   0 <= mThreadControl wt /\ write_ret o = sizeof_ControlMessage /\
   join_ret o = NO_ERROR /\
   mThreadControl r.1.2 = -1 /\
   mControlFD r.1.2 = (if 0 <=? mControlFD wt then -1 else mControlFD wt) /\
   (mThreadControl wt ∉ fdtable r.2) /\
   (0 <= mControlFD wt -> mControlFD wt ∉ fdtable r.2))
  \/
  (r.1.1 <> NO_ERROR /\ r.1.2 = wt /\ fdtable r.2 = fdtable w /\
   heap r.2 = heap w).
Proof.
  cbv zeta. unfold stopThread.
  destruct (0 <=? mThreadControl wt) eqn:Hopen; cbn [fst snd];
    [| right; repeat split; discriminate].
  destruct (write_ret o =? sizeof_ControlMessage) eqn:Hwr; cbn [fst snd].
  - destruct (join_ret o =? NO_ERROR) eqn:Hjoin; cbn [fst snd].
    + left. apply Z.leb_le in Hopen. apply Z.eqb_eq in Hwr, Hjoin.
      cbn [mControlFD mThreadControl].
      destruct (0 <=? mControlFD wt) eqn:Hrd; cbn [fst snd mControlFD mThreadControl];
        (do 6 (split; [solve [auto] |])).
      * split; [| intros _].
        { apply close_keeps_closed, close_not_open. }
        { apply close_not_open. }
      * apply Z.leb_gt in Hrd. split; [apply close_not_open | lia].
    + right. apply Z.eqb_neq in Hjoin. repeat split. exact Hjoin.
  - right. repeat split.
    destruct (write_errno o =? 0) eqn:He; [discriminate |].
    apply Z.eqb_neq in He. exact He.
Qed.

Lemma stopThread_consistent o wt w :
  endpoints_consistent wt = true ->
  endpoints_consistent (stopThread o wt w).1.2 = true.
Proof.
  intros Hinv.
  destruct (stopThread_cases o wt w)
    as [(_ & Hopen & _ & _ & Htc & Hcfd & _) | (_ & -> & _)];
    [| exact Hinv].
  unfold endpoints_consistent, endpoint_open in *.
  rewrite Htc, Hcfd. destruct (0 <=? mControlFD wt) eqn:Hrd; [reflexivity |].
  rewrite Hrd. reflexivity.
Qed.

Lemma run_ops_consistent ops :
  forall s, endpoints_consistent s.1 = true ->
            endpoints_consistent (run_ops ops s).1 = true.
Proof.
  induction ops as [| op ops IH]; intros [wt w] Hinv; [exact Hinv |].
  cbn [run_ops]. apply IH.
  destruct op as [o | o | o]; cbn [run_op fst snd].
  - apply readyToRun_consistent, Hinv.
  - apply startThread_consistent, Hinv.
  - apply stopThread_consistent, Hinv.
Qed.

(** C8: after any history of [readyToRun], [startThread] and [stopThread]
    calls on a new worker thread object, whatever the environment answered,
    the two signaling endpoints are both open or both closed; and a
    [stopThread] that then succeeds leaves both endpoints at -1, with the
    two descriptors closed. *)
Theorem endpoints_never_mixed ops w0 :
  let s := run_ops ops (WorkerThread_new, w0) in
  endpoints_consistent s.1 = true /\
  forall o,
    let r := stopThread o s.1 s.2 in
    endpoints_consistent r.1.2 = true /\
    (r.1.1 = NO_ERROR ->
     mThreadControl r.1.2 = -1 /\ mControlFD r.1.2 = -1 /\
     (mThreadControl s.1 ∉ fdtable r.2) /\ (mControlFD s.1 ∉ fdtable r.2)).
Proof.
  cbv zeta.
  assert (Hinv : endpoints_consistent
                   (run_ops ops (WorkerThread_new, w0)).1 = true)
    by (apply run_ops_consistent; reflexivity).
  split; [exact Hinv |]. intros o.
  split; [apply stopThread_consistent, Hinv |].
  destruct (run_ops ops (WorkerThread_new, w0)) as [wt w]. cbn [fst snd] in *.
  intros Hok.
  destruct (stopThread_cases o wt w)
    as [(_ & Hopen & _ & _ & Htc & Hcfd & Hc1 & Hc2) | (Hne & _)];
    [| contradiction].
  unfold endpoints_consistent, endpoint_open in Hinv.
  replace (0 <=? mThreadControl wt) with true in Hinv
    by (symmetry; apply Z.leb_le; exact Hopen).
  destruct (0 <=? mControlFD wt) eqn:Hrd; [| discriminate].
  apply Z.leb_le in Hrd. auto.
Qed.

Lemma endpoints_never_mixed_witness :
  let ops := [OpStart (PipeGives 4 5); OpStop (mkStopOracle (-1) 32 NO_ERROR);
              OpReady (PipeFails 24)] in
  let s := run_ops ops (WorkerThread_new, Sample.world0) in
  let r := stopThread (mkStopOracle 4 0 NO_ERROR) s.1 s.2 in
  s.1 = {| mThreadControl := 5; mControlFD := 4 |} /\
  r.1.1 = NO_ERROR /\
  mThreadControl r.1.2 = -1 /\ mControlFD r.1.2 = -1 /\
  (mThreadControl s.1 ∉ fdtable r.2) /\ (mControlFD s.1 ∉ fdtable r.2).
Proof.
  cbv zeta. split; [reflexivity |]. split; [reflexivity |].
  apply (proj2 (endpoints_never_mixed
                  [OpStart (PipeGives 4 5);
                   OpStop (mkStopOracle (-1) 32 NO_ERROR);
                   OpReady (PipeFails 24)] Sample.world0)
               (mkStopOracle 4 0 NO_ERROR)).
  reflexivity.
Defined.

(** ** Stopping the worker thread *)

(** When the [write] of the stop message fails, [stopThread] reports a
    nonzero status and does nothing else: no join, no [close], the
    endpoints keep their values. *)
Lemma stopThread_write_failure o wt w :
  0 <= mThreadControl wt ->
  write_ret o <> sizeof_ControlMessage ->
  let r := stopThread o wt w in
  r.1.1 <> NO_ERROR /\
  r.1.1 = (if write_errno o =? 0 then EINVAL else write_errno o) /\
  r.1.2 = wt /\
  fdtable r.2 = fdtable w /\
  log r.2 = EvWrite (mThreadControl wt) THREAD_STOP (write_ret o) :: log w.
Proof.
  intros Hopen Hwr. cbv zeta. unfold stopThread.
  replace (0 <=? mThreadControl wt) with true
    by (symmetry; apply Z.leb_le; exact Hopen).
  replace (write_ret o =? sizeof_ControlMessage) with false
    by (symmetry; apply Z.eqb_neq; exact Hwr).
  cbn [fst snd]. repeat split.
  destruct (write_errno o =? 0) eqn:He; [discriminate |].
  apply Z.eqb_neq in He. exact He.
Qed.

(** [stopWorkerThread] on an initialized device returns [NO_ERROR] whatever
    [stopThread] returned. *)
Lemma stopWorkerThread_status o d w wt :
  isInitialized d = true ->
  mWorkerThread d = Some wt ->
  stopWorkerThread o d w
  = Some (NO_ERROR, set_mWorkerThread (Some (stopThread o wt w).1.2) d,
          (stopThread o wt w).2).
Proof.
  intros Hinit Hwt. unfold stopWorkerThread, getWorkerThread.
  rewrite Hinit, Hwt. cbn [negb mbind option_bind].
  destruct (stopThread o wt w) as [[res wt'] w']. reflexivity.
Qed.

(** C3: the code at the failing input.  The device is initialized, its
    worker thread is started with control pipe (4, 5), and the [write] of
    the stop message fails with -1 and [errno] 32.  [stopThread] reports
    32, leaves both endpoints open and does not join -- and
    [stopWorkerThread] returns [NO_ERROR] all the same. *)
Theorem stopWorkerThread_drops_write_error :
  let wt := Sample.started_thread in
  let d := set_mWorkerThread (Some wt) Sample.initialized in
  let w := Sample.world_thread in
  let o := mkStopOracle (-1) 32 NO_ERROR in
  (stopThread o wt w).1.1 = 32 /\
  (stopThread o wt w).1.2 = wt /\
  fdtable (stopThread o wt w).2 = fdtable w /\
  count_events is_join (log (stopThread o wt w).2) = 0%nat /\
  count_events is_close (log (stopThread o wt w).2) = 0%nat /\
  stopWorkerThread o d w
  = Some (NO_ERROR, d, emit (EvWrite 5 THREAD_STOP (-1)) w).
Proof.
  cbv zeta. repeat split.
Qed.

(** ** The readiness wait *)




(** ** A timeout of 0 *)

Lemma first_ready_attained o l :
  forall t, first_ready o l = Some t ->
            exists fd, fd ∈ l /\ readable_after o fd = Some t.
Proof.
  induction l as [| a l IH]; intros t; cbn [first_ready foldr];
    [discriminate |].
  fold (first_ready o l).
  destruct (readable_after o a) as [x |] eqn:Ha;
    destruct (first_ready o l) as [y |] eqn:Hl; cbn [earlier].
  - intros Heq. injection Heq as <-.
    destruct (N.min_spec x y) as [[_ Hmin] | [_ Hmin]]; rewrite Hmin.
    + exists a. split; [apply list_elem_of_here | exact Ha].
    + destruct (IH y eq_refl) as (fd & Hin & Hfd).
      exists fd. split; [apply list_elem_of_further, Hin | exact Hfd].
  - intros Heq. injection Heq as <-.
    exists a. split; [apply list_elem_of_here | exact Ha].
  - intros Heq. destruct (IH t Heq) as (fd & Hin & Hfd).
    exists fd. split; [apply list_elem_of_further, Hin | exact Hfd].
  - discriminate.
Qed.

Lemma first_ready_never o l :
  (forall fd, fd ∈ l -> readable_after o fd = None) ->
  first_ready o l = None.
Proof.
  induction l as [| a l IH]; intros Hnone; [reflexivity |].
  cbn [first_ready foldr]. fold (first_ready o l).
  rewrite (Hnone a) by apply list_elem_of_here.
  rewrite IH; [reflexivity |].
  intros fd Hin. apply Hnone, list_elem_of_further, Hin.
Qed.

(** With a null timeout [select] returns -1 or the positive number of
    readable descriptors, never 0. *)
Lemma sys_select_null_timeout o w nfds fds res fds' :
  sys_select o w nfds fds None = Some (res, fds') ->
  res = -1 \/ 0 < res.
Proof.
  unfold sys_select.
  destruct (_ || _ || _).
  { intros Heq. injection Heq as <- _. left. reflexivity. }
  destruct (first_ready o _) as [t |] eqn:Hfirst; [| discriminate].
  intros Heq. injection Heq as <- _. right.
  destruct (first_ready_attained _ _ _ Hfirst) as (fd & Hin & Hfd).
  apply elem_of_elements in Hin.
  assert (Hready : fd ∈ filter (fun fd => readable_by o t fd = true)
                     (filter (fun fd => fd < nfds) fds)).
  { apply elem_of_filter. split; [| exact Hin].
    unfold readable_by. rewrite Hfd. apply N.leb_refl. }
  assert (Hsize : size (filter (fun fd => readable_by o t fd = true)
                     (filter (fun fd => fd < nfds) fds)) <> 0%nat).
  { intros Hz. apply size_empty_iff in Hz. apply Hz in Hready.
    apply not_elem_of_empty in Hready. exact Hready. }
  lia.
Qed.

Lemma timeval_of_positive timeout :
  0 < timeout <= INT_MAX ->
  0 <= int_div timeout 1000000 /\ 0 <= int_rem timeout 1000000.
Proof.
  intros Ht.
  assert (Hq : 0 <= Z.quot timeout 1000000 <= timeout).
  { pose proof (quot_between timeout 1000000 eq_refl). lia. }
  assert (Hr : 0 <= Z.rem timeout 1000000 < 1000000).
  { apply Z.rem_bound_pos; lia. }
  unfold int_div, int_rem.
  rewrite !wrap_int_id; unfold INT_MIN, INT_MAX in *; lia.
Qed.

Lemma first_ready_none_inv o l :
  first_ready o l = None ->
  forall x, x ∈ l -> readable_after o x = None.
Proof.
  induction l as [| a l IH]; intros Hnone x Hin.
  - apply elem_of_nil in Hin. contradiction.
  - cbn [first_ready foldr] in Hnone. fold (first_ready o l) in Hnone.
    destruct (readable_after o a) as [z |] eqn:Ha;
      destruct (first_ready o l) as [y |]; cbn [earlier] in Hnone;
      try discriminate.
    apply elem_of_cons in Hin as [-> | Hin]; [exact Ha | exact (IH eq_refl x Hin)].
Qed.

Lemma first_ready_le o l :
  forall t, first_ready o l = Some t ->
  forall x t', x ∈ l -> readable_after o x = Some t' -> (t <= t')%N.
Proof.
  induction l as [| a l IH]; intros t; cbn [first_ready foldr];
    [discriminate |].
  fold (first_ready o l). intros Hfirst x t' Hin Hx.
  apply elem_of_cons in Hin as [-> | Hin].
  - rewrite Hx in Hfirst.
    destruct (first_ready o l) as [y |]; cbn [earlier] in Hfirst;
      injection Hfirst as <-; lia.
  - destruct (first_ready o l) as [y |] eqn:Hl.
    + pose proof (IH y eq_refl x t' Hin Hx) as Hle.
      destruct (readable_after o a) as [z |]; cbn [earlier] in Hfirst;
        injection Hfirst as <-; lia.
    + rewrite (first_ready_none_inv o l Hl x Hin) in Hx. discriminate.
Qed.

(** The descriptors [Select] watches are the control descriptor and, when
    it is not negative, the caller's; with both below [INT_MAX] none of
    them is cut off by the descriptor count handed to [select]. *)
Lemma Select_watched wt fd :
  0 <= mControlFD wt < INT_MAX -> fd < INT_MAX ->
  let nfds := if 0 <=? fd then int_add (Z.max fd (mControlFD wt)) 1
              else int_add (mControlFD wt) 1 in
  let fds : gset Z := if 0 <=? fd then {[fd]} ∪ ({[mControlFD wt]} ∪ ∅)
                      else {[mControlFD wt]} ∪ ∅ in
  forall x, x ∈ filter (fun y => y < nfds) fds <->
            x = mControlFD wt \/ (0 <= fd /\ x = fd).
Proof.
  intros Hc Hf. cbv zeta. intros x. rewrite elem_of_filter.
  unfold int_add. destruct (0 <=? fd) eqn:Hpos.
  - apply Z.leb_le in Hpos.
    rewrite wrap_int_id by (unfold INT_MIN, INT_MAX in *; lia).
    rewrite !elem_of_union, !elem_of_singleton, elem_of_empty. split.
    + intros [_ [-> | [-> | []]]]; auto.
    + intros [-> | [_ ->]]; split; auto; lia.
  - apply Z.leb_gt in Hpos.
    rewrite wrap_int_id by (unfold INT_MIN, INT_MAX in *; lia).
    rewrite !elem_of_union, !elem_of_singleton, elem_of_empty. split.
    + intros [_ [-> | []]]; auto.
    + intros [-> | [Hge _]]; [split; auto; lia | lia].
Qed.

(** [Select] with a [timeout] of 0, once some watched descriptor becomes
    readable: the wait returns at the first such moment [t], and the
    control descriptor is served if it is readable by then, the caller's
    descriptor otherwise. *)
Lemma Select_zero_at_first_ready o wt fd w t :
  select_fault o = None ->
  mControlFD wt ∈ fdtable w -> (0 <= fd -> fd ∈ fdtable w) ->
  0 <= mControlFD wt < INT_MAX -> fd < INT_MAX ->
  (exists x, (x = mControlFD wt \/ (0 <= fd /\ x = fd)) /\
             readable_after o x = Some t) ->
  (forall x t', x = mControlFD wt \/ (0 <= fd /\ x = fd) ->
                readable_after o x = Some t' -> (t <= t')%N) ->
  Select o wt fd 0 w
  = if readable_by o t (mControlFD wt)
    then Some (if (read_ret o =? sizeof_ControlMessage)
                  && (read_msg o =? THREAD_STOP)
               then EXIT_THREAD else ERROR,
               emit (EvRead (mControlFD wt) (read_ret o)) w)
    else Some (READY, w).
Proof.
  intros Hfault Hctl Hfd Hc Hf (x0 & Hx0 & Ht0) Hmin.
  pose proof (Select_watched wt fd Hc Hf) as Hw. cbv zeta in Hw.
  unfold Select, Select_wait, sys_select. rewrite Z.eqb_refl, Hfault.
  rewrite (bool_decide_eq_false_2 (is_Some (@None Z)))
    by (intros [? ?]; discriminate).
  match goal with
  | |- context [bool_decide (?s ⊆ fdtable w)] =>
      replace (bool_decide (s ⊆ fdtable w)) with true
  end.
  2:{ symmetry. apply bool_decide_eq_true. intros x Hx.
      apply Hw in Hx as [-> | [Hpos ->]]; auto. }
  match goal with
  | |- context [first_ready o ?l] =>
      assert (Hfirst : first_ready o l = Some t)
  end.
  { match goal with
    | |- first_ready o ?l = _ => destruct (first_ready o l) as [t1 |] eqn:E
    end.
    - destruct (first_ready_attained _ _ _ E) as (x1 & Hin1 & Ht1).
      apply elem_of_elements, Hw in Hin1.
      pose proof (Hmin x1 t1 Hin1 Ht1) as Hle1.
      assert (Hle2 : (t1 <= t)%N).
      { apply (first_ready_le _ _ _ E x0 t); [| exact Ht0].
        apply elem_of_elements, Hw. exact Hx0. }
      f_equal. lia.
    - rewrite (first_ready_none_inv _ _ E x0) in Ht0; [discriminate |].
      apply elem_of_elements, Hw. exact Hx0. }
  rewrite Hfirst. cbn [orb negb].
  match goal with
  | |- context [size ?R] => set (ready := R)
  end.
  assert (Hx0r : x0 ∈ ready).
  { apply elem_of_filter. split; [| apply Hw; exact Hx0].
    unfold readable_by. rewrite Ht0. apply N.leb_refl. }
  assert (Hsize : size ready <> 0%nat).
  { intros Hz. apply size_empty_iff in Hz. apply Hz in Hx0r.
    apply not_elem_of_empty in Hx0r. exact Hx0r. }
  cbn [mbind option_bind].
  replace (Z.of_nat (size ready) <? 0) with false
    by (symmetry; apply Z.ltb_ge; lia).
  replace (Z.of_nat (size ready) =? 0) with false
    by (symmetry; apply Z.eqb_neq; lia).
  destruct (readable_by o t (mControlFD wt)) eqn:Hcr; case_bool_decide as Hin.
  - destruct (read_ret o =? sizeof_ControlMessage); cbn [negb andb];
      [| reflexivity].
    destruct (read_msg o =? THREAD_STOP); reflexivity.
  - exfalso. apply Hin, elem_of_filter.
    split; [exact Hcr | apply Hw; left; reflexivity].
  - apply elem_of_filter in Hin as [Hin _]. congruence.
  - reflexivity.
Qed.

(** C10: in [Select] a [timeout] of 0 means no timeout.  Whatever the
    environment does, a [TIMEOUT] result implies that the [timeout]
    argument was not 0.  When neither the control descriptor nor the
    caller's descriptor ever becomes readable (both being open and the wait
    itself not failing), [Select] with [timeout] 0 never returns, while
    with any positive [timeout] it returns [TIMEOUT].  And as soon as a
    source is readable, however late, [Select] with [timeout] 0 does
    return: if the control descriptor is readable no later than the
    caller's, the control message is read and the result is [EXIT_THREAD]
    for a whole [THREAD_STOP] message and [ERROR] otherwise; if the
    caller's descriptor is readable strictly first, the result is
    [READY]. *)
Theorem Select_zero_timeout o wt fd w :
  (forall timeout r w',
     Select o wt fd timeout w = Some (r, w') -> r = TIMEOUT -> timeout <> 0) /\
  (select_fault o = None ->
   mControlFD wt ∈ fdtable w -> (0 <= fd -> fd ∈ fdtable w) ->
   readable_after o (mControlFD wt) = None -> readable_after o fd = None ->
   Select o wt fd 0 w = None /\
   forall timeout, 0 < timeout <= INT_MAX ->
                   Select o wt fd timeout w = Some (TIMEOUT, w)) /\
  (select_fault o = None ->
   mControlFD wt ∈ fdtable w -> (0 <= fd -> fd ∈ fdtable w) ->
   0 <= mControlFD wt < INT_MAX -> fd < INT_MAX ->
   (forall c,
      readable_after o (mControlFD wt) = Some c ->
      (0 <= fd -> forall f, readable_after o fd = Some f -> (c <= f)%N) ->
      Select o wt fd 0 w
      = Some (if (read_ret o =? sizeof_ControlMessage)
                 && (read_msg o =? THREAD_STOP)
              then EXIT_THREAD else ERROR,
              emit (EvRead (mControlFD wt) (read_ret o)) w)) /\
   (forall f,
      0 <= fd -> readable_after o fd = Some f ->
      (forall c, readable_after o (mControlFD wt) = Some c -> (f < c)%N) ->
      Select o wt fd 0 w = Some (READY, w))).
Proof.
  split; [| split].
  - intros timeout r w' Hsel Hr Hzero. subst timeout r.
    unfold Select, Select_wait in Hsel. rewrite Z.eqb_refl in Hsel.
    destruct (sys_select o w _ _ None) as [[res fds] |] eqn:Hwait;
      [| discriminate].
    apply sys_select_null_timeout in Hwait.
    cbn [mbind option_bind] in Hsel.
    destruct (res <? 0) eqn:Hneg; [discriminate |].
    apply Z.ltb_ge in Hneg.
    destruct (res =? 0) eqn:Hz; [apply Z.eqb_eq in Hz; lia |].
    destruct (bool_decide _); [| discriminate].
    destruct (negb _); [discriminate |].
    destruct (read_msg o =? THREAD_STOP); discriminate.
  - intros Hfault Hctl Hfd Hnc Hnf.
    assert (Hfds : forall x nfds,
               x ∈ filter (fun y => y < nfds)
                     (if 0 <=? fd then {[fd]} ∪ ({[mControlFD wt]} ∪ ∅)
                      else ({[mControlFD wt]} ∪ ∅ : gset Z)) ->
               x ∈ fdtable w /\ readable_after o x = None).
    { intros x nfds Hx. apply elem_of_filter in Hx as [_ Hx].
      destruct (0 <=? fd) eqn:Hpos.
      - apply Z.leb_le in Hpos.
        apply elem_of_union in Hx as [Hx | Hx].
        + apply elem_of_singleton in Hx as ->. auto.
        + apply elem_of_union in Hx as [Hx | Hx].
          * apply elem_of_singleton in Hx as ->. auto.
          * apply not_elem_of_empty in Hx. contradiction.
      - apply elem_of_union in Hx as [Hx | Hx].
        + apply elem_of_singleton in Hx as ->. auto.
        + apply not_elem_of_empty in Hx. contradiction. }
    assert (Hwait : forall timeout,
               timeout = 0 \/ 0 < timeout <= INT_MAX ->
               Select_wait o wt fd timeout w
               = if timeout =? 0 then None else Some (0, ∅)).
    { intros timeout Ht. unfold Select_wait, sys_select. rewrite Hfault.
      match goal with
      | |- context [bool_decide (?s ⊆ fdtable w)] =>
          replace (bool_decide (s ⊆ fdtable w)) with true
            by (symmetry; apply bool_decide_eq_true;
                intros x Hx; exact (proj1 (Hfds x _ Hx)))
      end.
      rewrite first_ready_never
        by (intros x Hx; apply elem_of_elements in Hx;
            exact (proj2 (Hfds x _ Hx))).
      destruct (timeout =? 0) eqn:Hz.
      - cbn. reflexivity.
      - apply Z.eqb_neq in Hz. destruct Ht as [Ht | Ht]; [contradiction |].
        destruct (timeval_of_positive timeout Ht) as [Hs Hu].
        cbn [tv_sec tv_usec].
        replace (int_div timeout 1000000 <? 0) with false
          by (symmetry; apply Z.ltb_ge; exact Hs).
        replace (int_rem timeout 1000000 <? 0) with false
          by (symmetry; apply Z.ltb_ge; exact Hu).
        cbn. reflexivity. }
    split.
    + unfold Select. rewrite Hwait by (left; reflexivity). reflexivity.
    + intros timeout Ht. unfold Select. rewrite Hwait by (right; exact Ht).
      replace (timeout =? 0) with false by (symmetry; apply Z.eqb_neq; lia).
      reflexivity.
  - intros Hfault Hctl Hfd Hc Hf. split.
    + intros c Hrc Hfirst.
      rewrite (Select_zero_at_first_ready o wt fd w c Hfault Hctl Hfd Hc Hf).
      * unfold readable_by. rewrite Hrc, N.leb_refl. reflexivity.
      * exists (mControlFD wt). auto.
      * intros x t' [-> | [Hpos ->]] Hx; [| exact (Hfirst Hpos t' Hx)].
        rewrite Hrc in Hx. injection Hx as <-. lia.
    + intros f Hpos Hrf Hfirst.
      rewrite (Select_zero_at_first_ready o wt fd w f Hfault Hctl Hfd Hc Hf).
      * unfold readable_by.
        destruct (readable_after o (mControlFD wt)) as [c |] eqn:Hrc;
          [| reflexivity].
        pose proof (Hfirst c eq_refl) as Hlt.
        replace (c <=? f)%N with false
          by (symmetry; apply N.leb_gt; exact Hlt).
        reflexivity.
      * exists fd. auto.
      * intros x t' [-> | [_ ->]] Hx.
        { pose proof (Hfirst t' Hx). lia. }
        { rewrite Hrf in Hx. injection Hx as <-. lia. }
Qed.

Lemma Select_zero_timeout_witness :
  let w7 := set_fdtable ({[7]} ∪ fdtable Sample.world_thread)
              Sample.world_thread in
  let data_first :=
    mkSelectOracle (fun fd => if fd =? 7 then Some 3%N
                              else if fd =? 4 then Some 9%N else None)
                   None 4 THREAD_STOP in
  Select Sample.idle Sample.started_thread (-1) 0 Sample.world_thread = None /\
  Select Sample.idle Sample.started_thread (-1) 50 Sample.world_thread
    = Some (TIMEOUT, Sample.world_thread) /\
  Select Sample.stop_pending Sample.started_thread 7 0 w7
    = Some (EXIT_THREAD, emit (EvRead 4 4) w7) /\
  Select data_first Sample.started_thread 7 0 w7 = Some (READY, w7).
Proof.
  cbv zeta.
  destruct (proj1 (proj2 (Select_zero_timeout Sample.idle
                            Sample.started_thread (-1) Sample.world_thread)))
    as [Hblock Htimeout].
  - reflexivity.
  - vm_compute. reflexivity.
  - intros Hneg. lia.
  - reflexivity.
  - reflexivity.
  - split; [exact Hblock |].
    split; [apply Htimeout; unfold INT_MAX; lia |].
    split.
    + refine (proj1 (proj2 (proj2 (Select_zero_timeout Sample.stop_pending
                _ 7 _)) _ _ _ _ _) 10%N _ _).
      * reflexivity.
      * vm_compute. reflexivity.
      * intros _. vm_compute. reflexivity.
      * vm_compute. split; [discriminate | reflexivity].
      * vm_compute. reflexivity.
      * reflexivity.
      * intros _ f Hf. vm_compute in Hf. injection Hf as <-.
        vm_compute. discriminate.
    + refine (proj2 (proj2 (proj2 (Select_zero_timeout _ _ 7 _)) _ _ _ _ _)
                3%N _ _ _).
      * reflexivity.
      * vm_compute. reflexivity.
      * intros _. vm_compute. reflexivity.
      * vm_compute. split; [discriminate | reflexivity].
      * vm_compute. reflexivity.
      * lia.
      * reflexivity.
      * intros c Hc. vm_compute in Hc. injection Hc as <-.
        vm_compute. reflexivity.
Defined.

(** * Further properties *)

(** ** The capture life cycle under hooks that respect the base class *)

Lemma frame_info_cached_keeps width height pix_fmt d :
  mWorkerThread (frame_info_cached width height pix_fmt d) = mWorkerThread d /\
  isInitialized (frame_info_cached width height pix_fmt d) = isInitialized d /\
  mPixelFormat (frame_info_cached width height pix_fmt d) = pix_fmt.
Proof. repeat split. Qed.

(** [startCapturing] on the supported format with a start hook that stays
    within its remit: either a fresh block of the cached byte size becomes
    the frame buffer, or nothing is left allocated. *)
Lemma startCapturing_respectful `{DeviceHooks} o width height d w :
  hook_respects_base startDevice ->
  let r := startCapturing o width height V4L2_PIX_FMT_YVU420 d w in
  mWorkerThread r.1.2 = mWorkerThread d /\
  isInitialized r.1.2 = isInitialized d /\
  ((r.1.1 = NO_ERROR /\
    exists b content,
      heap w !! b = None /\ mCurrentFrame r.1.2 = Some b /\
      heap r.2 = <[b := content]> (heap w) /\
      Z.of_nat (length content) = mFrameBufferSize r.1.2 /\
      mPixelFormat r.1.2 = V4L2_PIX_FMT_YVU420)
   \/
   (r.1.1 <> NO_ERROR /\ mCurrentFrame r.1.2 = None /\ heap r.2 = heap w)).
Proof.
  intros Hhook. cbv zeta. rewrite startCapturing_unfold. cbv zeta.
  destruct (frame_info_cached_keeps width height V4L2_PIX_FMT_YVU420 d)
    as (Hcw & Hci & Hcf).
  revert Hcw Hci Hcf.
  generalize (frame_info_cached width height V4L2_PIX_FMT_YVU420 d) as c.
  intros c Hcw Hci Hcf.
  destruct (new_uint8_array o _ w) as [[b |] w1] eqn:Halloc.
  - apply new_uint8_array_Some in Halloc
      as (_ & Hfresh & content & Hw1 & Hlen & _).
    pose proof (Hhook (frame_attached b c) w1)
      as (Hcur & Hsz & Hfmt & Hwt & Hinit & Hheap).
    destruct (startDevice (frame_attached b c) w1) as [[res d2] w2].
    cbn [fst snd] in *.
    change (mCurrentFrame (frame_attached b c)) with (Some b) in Hcur.
    change (mFrameBufferSize (frame_attached b c))
      with (mFrameBufferSize c) in Hsz.
    change (mPixelFormat (frame_attached b c)) with (mPixelFormat c) in Hfmt.
    change (mWorkerThread (frame_attached b c))
      with (mWorkerThread c) in Hwt.
    change (isInitialized (frame_attached b c))
      with (isInitialized c) in Hinit.
    destruct (res =? NO_ERROR) eqn:Hres; cbn [fst snd].
    + apply Z.eqb_eq in Hres.
      split; [congruence |]. split; [congruence |]. left.
      split; [exact Hres |]. exists b, content.
      rewrite Hheap, Hw1, Hsz, Hfmt. auto.
    + apply Z.eqb_neq in Hres.
      split; [rewrite <- Hcw, <- Hwt; reflexivity |].
      split; [rewrite <- Hci, <- Hinit; reflexivity |]. right.
      split; [exact Hres |]. split; [reflexivity |].
      rewrite Hcur. unfold delete_array, emit, set_heap. cbn [heap].
      rewrite Hheap, Hw1. apply delete_insert_id, Hfresh.
  - apply new_uint8_array_None in Halloc as (Hheap & _). cbn [fst snd].
    split; [exact Hcw |]. split; [exact Hci |]. right.
    split; [discriminate |]. split; [reflexivity | exact Hheap].
Qed.

(** [stopCapturing] with a stop hook that stays within its remit. *)
Lemma stopCapturing_respectful `{DeviceHooks} d w :
  hook_respects_base stopDevice ->
  let r := stopCapturing d w in
  mWorkerThread r.1.2 = mWorkerThread d /\
  isInitialized r.1.2 = isInitialized d /\
  mFrameBufferSize r.1.2 = mFrameBufferSize d /\
  ((r.1.1 = NO_ERROR /\ mCurrentFrame r.1.2 = None /\
    heap r.2 = match mCurrentFrame d with
               | Some b => delete b (heap w)
               | None => heap w
               end)
   \/
   (r.1.1 <> NO_ERROR /\ mCurrentFrame r.1.2 = mCurrentFrame d /\
    heap r.2 = heap w)).
Proof.
  intros Hhook. cbv zeta. unfold stopCapturing.
  pose proof (Hhook d w) as (Hcur & Hsz & _ & Hwt & Hinit & Hheap).
  destruct (stopDevice d w) as [[res d1] w1]. cbn [fst snd] in *.
  destruct (res =? NO_ERROR) eqn:Hres.
  - apply Z.eqb_eq in Hres. rewrite <- Hcur.
    destruct (mCurrentFrame d1) as [b |] eqn:Hb; cbn [fst snd].
    + split; [exact Hwt |]. split; [exact Hinit |]. split; [exact Hsz |].
      left. split; [exact Hres |]. split; [reflexivity |].
      unfold delete_array, emit, set_heap. cbn [heap].
      rewrite Hheap. reflexivity.
    + split; [exact Hwt |]. split; [exact Hinit |]. split; [exact Hsz |].
      left. split; [exact Hres |]. split; [exact Hb | exact Hheap].
  - apply Z.eqb_neq in Hres. cbn [fst snd].
    split; [exact Hwt |]. split; [exact Hinit |]. split; [exact Hsz |].
    right. auto.
Qed.

Lemma checked_hooks_respect_base : @hooks_respect_base Sample.checked_hooks.
Proof.
  split; intros d w; cbn.
  - destruct (isInitialized d) eqn:Hi; cbn; [| auto 10].
    destruct (isCapturing d); cbn; auto 10.
  - destruct (isCapturing d) eqn:Hc; cbn; [| auto 10].
    unfold isInitialized, isCapturing in *. destruct (mState d); cbn in *;
      try discriminate; auto 10.
Qed.

Lemma failing_hooks_respect_base e : @hooks_respect_base (Sample.failing_hooks e).
Proof. split; intros d w; cbn; auto 10. Qed.

(** ** Extras on the capture life cycle *)

(** X1: with any pixel format other than the planar YUV 4:2:0 one,
    [startCapturing] returns [EINVAL] and does nothing else, whatever the
    hooks and the allocator would have answered: nothing is cached, nothing
    is allocated. *)
Theorem startCapturing_unsupported_format `{DeviceHooks} o width height
    pix_fmt d w :
  pix_fmt <> V4L2_PIX_FMT_YVU420 ->
  startCapturing o width height pix_fmt d w = (EINVAL, d, w).
Proof.
  intros Hfmt. unfold startCapturing.
  replace (pix_fmt =? V4L2_PIX_FMT_YVU420) with false
    by (symmetry; apply Z.eqb_neq; exact Hfmt).
  reflexivity.
Qed.

Lemma startCapturing_unsupported_format_witness :
  v4l2_fourcc 89 85 89 86 <> V4L2_PIX_FMT_YVU420 /\
  @startCapturing Sample.checked_hooks (AllocGives []) 176 144
    (v4l2_fourcc 89 85 89 86) Sample.initialized Sample.world1
  = (EINVAL, Sample.initialized, Sample.world1).
Proof.
  assert (Hfmt : v4l2_fourcc 89 85 89 86 <> V4L2_PIX_FMT_YVU420)
    by (vm_compute; discriminate).
  split; [exact Hfmt |].
  apply (@startCapturing_unsupported_format Sample.checked_hooks). exact Hfmt.
Defined.







(** ** Extras on reading frames *)

(** X5: once [stopCapturing] has succeeded, both frame readers fail with
    [EINVAL] and leave the caller's buffer untouched, whatever the stop
    hook did to the lifecycle state and whatever the converter is. *)
Theorem readers_fail_after_stop `{DeviceHooks} `{Converters} d w buffer :
  let r := stopCapturing d w in
  r.1.1 = NO_ERROR ->
  getCurrentFrame r.1.2 r.2 buffer = Some (EINVAL, r.1.2, r.2, buffer) /\
  getCurrentPreviewFrame r.1.2 r.2 buffer = Some (EINVAL, r.1.2, r.2, buffer).
Proof.
  cbv zeta. intros Hok.
  assert (Hnull : mCurrentFrame (stopCapturing d w).1.2 = None).
  { revert Hok. unfold stopCapturing.
    destruct (stopDevice d w) as [[res d1] w1].
    destruct (res =? NO_ERROR) eqn:Hres.
    - destruct (mCurrentFrame d1) eqn:Hb; cbn [fst snd]; auto.
    - apply Z.eqb_neq in Hres. cbn [fst snd]. contradiction. }
  unfold getCurrentFrame, getCurrentPreviewFrame. rewrite Hnull.
  destruct (isCapturing _); auto.
Qed.

Lemma readers_fail_after_stop_witness :
  (@stopCapturing Sample.checked_hooks Sample.capturing Sample.world2).1.1
    = NO_ERROR /\
  getCurrentFrame Sample.stopped Sample.world3 [xff; xff]
    = Some (EINVAL, Sample.stopped, Sample.world3, [xff; xff]) /\
  @getCurrentPreviewFrame SampleMore.luma_converter Sample.stopped
     Sample.world3 [xff; xff]
    = Some (EINVAL, Sample.stopped, Sample.world3, [xff; xff]).
Proof.
  split; [reflexivity |].
  apply (@readers_fail_after_stop Sample.checked_hooks
           SampleMore.luma_converter Sample.capturing Sample.world2).
  reflexivity.
Defined.





(** ** Extras on [Initialize] and on histories of calls *)

(** X8: [Initialize] returns [NO_ERROR] or [ENOMEM]; it returns [NO_ERROR]
    exactly when the device is initialized afterwards, and [ENOMEM] exactly
    when the device was not initialized and the controller could not be
    allocated.  After such a failure the device is still uninitialized and
    a later [Initialize] whose allocation succeeds initializes it.  The
    frame buffer and the heap are never touched. *)
Theorem Initialize_outcome ok d w :
  let r := Initialize ok d w in
  (r.1.1 = NO_ERROR \/ r.1.1 = ENOMEM) /\
  (r.1.1 = NO_ERROR <-> isInitialized r.1.2 = true) /\
  (r.1.1 = ENOMEM <-> isInitialized d = false /\ ok = false) /\
  (r.1.1 = ENOMEM ->
   (Initialize true r.1.2 r.2).1.1 = NO_ERROR /\
   isInitialized (Initialize true r.1.2 r.2).1.2 = true) /\
  mCurrentFrame r.1.2 = mCurrentFrame d /\ heap r.2 = heap w.
Proof.
  cbv zeta. destruct (isInitialized d) eqn:Hinit.
  - rewrite (Initialize_noop ok d w Hinit). cbn [fst snd]. rewrite Hinit.
    split; [left; reflexivity |]. split; [tauto |].
    split; [split; [discriminate | intros [? _]; discriminate] |].
    split; [discriminate | auto].
  - destruct ok.
    + assert (E : Initialize true d w
                  = (NO_ERROR,
                     set_mState ECDS_INITIALIZED
                       (set_mWorkerThread (Some WorkerThread_new) d),
                     emit (EvNewWorkerThread true) w))
        by (unfold Initialize; rewrite Hinit; reflexivity).
      rewrite E. cbn [fst snd].
      split; [left; reflexivity |].
      split; [split; reflexivity |].
      split; [split; [discriminate | intros [_ ?]; discriminate] |].
      split; [discriminate | auto].
    + assert (E : Initialize false d w
                  = (ENOMEM, set_mWorkerThread None d,
                     emit (EvNewWorkerThread false) w))
        by (unfold Initialize; rewrite Hinit; reflexivity).
      rewrite E. cbn [fst snd].
      assert (Hstill : isInitialized (set_mWorkerThread None d) = false)
        by exact Hinit.
      rewrite Hstill.
      split; [right; reflexivity |].
      split; [split; discriminate |].
      split; [tauto |].
      split; [| auto]. intros _. unfold Initialize. rewrite Hstill.
      cbn [getWorkerThread mWorkerThread set_mWorkerThread fst snd]. auto.
Qed.

Lemma Initialize_outcome_witness :
  let r := Initialize false Sample.constructed Sample.world0 in
  r.1.1 = ENOMEM /\ isInitialized r.1.2 = false /\
  (Initialize true r.1.2 r.2).1.1 = NO_ERROR /\
  isInitialized (Initialize true r.1.2 r.2).1.2 = true.
Proof.
  cbv zeta.
  destruct (Initialize_outcome false Sample.constructed Sample.world0)
    as (_ & _ & _ & Hretry & _).
  split; [reflexivity |]. split; [reflexivity |].
  apply Hretry. reflexivity.
Defined.

Lemma readyToRun_heap o wt w : heap (readyToRun o wt w).2 = heap w.
Proof. destruct o; reflexivity. Qed.

Lemma startThread_heap o wt w : heap (startThread o wt w).2 = heap w.
Proof.
  unfold startThread. pose proof (readyToRun_heap o wt w) as Hr.
  destruct (readyToRun o wt w) as [[res wt'] w'].
  destruct (res =? NO_ERROR); exact Hr.
Qed.

Lemma stopThread_heap o wt w : heap (stopThread o wt w).2 = heap w.
Proof.
  unfold stopThread.
  destruct (0 <=? mThreadControl wt); [| reflexivity].
  destruct (write_ret o =? sizeof_ControlMessage); [| reflexivity].
  destruct (join_ret o =? NO_ERROR); [| reflexivity].
  cbn [mControlFD]. destruct (0 <=? mControlFD wt); reflexivity.
Qed.

Lemma frame_wf_same d d' w w' :
  mCurrentFrame d' = mCurrentFrame d ->
  mFrameBufferSize d' = mFrameBufferSize d ->
  heap w' = heap w ->
  frame_wf d w -> frame_wf d' w'.
Proof.
  intros Hcur Hsz Hheap Hwf b Hb. rewrite Hcur in Hb.
  rewrite Hsz, Hheap. exact (Hwf b Hb).
Qed.

(** Every call keeps the device well formed and is defined on a well
    formed device. *)
Lemma run_call_device_wf `{DeviceHooks} c d w :
  hooks_respect_base ->
  device_wf d w ->
  exists d' w', run_call c (d, w) = Some (d', w') /\ device_wf d' w'.
Proof.
  intros [Hstart Hstop] [Hworker Hframe].
  destruct c as [ok | o width height pix_fmt | | o | o]; cbn [run_call fst snd].
  - (* Initialize *)
    eexists _, _. split; [reflexivity |].
    unfold Initialize. destruct (isInitialized d) eqn:Hinit; cbn [fst snd].
    + split; [exact Hworker | exact Hframe].
    + destruct ok;
        cbn [getWorkerThread mWorkerThread set_mWorkerThread fst snd].
      * split; [| exact Hframe].
        intros _. exists WorkerThread_new. split; reflexivity.
      * split; [| exact Hframe].
        intros Hi. change (isInitialized d = true) in Hi. congruence.
  - (* startCapturing *)
    eexists _, _. split; [reflexivity |].
    destruct (Z.eq_dec pix_fmt V4L2_PIX_FMT_YVU420) as [-> | Hfmt].
    + destruct (startCapturing_respectful o width height d w Hstart)
        as (Hwt & Hinit & [(_ & b & content & _ & Hnew & Hheap & Hlen & _)
                          | (_ & Hnull & _)]).
      * split.
        { intros Hi. rewrite Hinit in Hi. rewrite Hwt. exact (Hworker Hi). }
        { intros b' Hb'. rewrite Hnew in Hb'. injection Hb' as <-.
          exists content. rewrite Hheap, lookup_insert_eq. auto. }
      * split.
        { intros Hi. rewrite Hinit in Hi. rewrite Hwt. exact (Hworker Hi). }
        { intros b' Hb'. rewrite Hnull in Hb'. discriminate. }
    + unfold startCapturing.
      replace (pix_fmt =? V4L2_PIX_FMT_YVU420) with false
        by (symmetry; apply Z.eqb_neq; exact Hfmt).
      split; [exact Hworker | exact Hframe].
  - (* stopCapturing *)
    eexists _, _. split; [reflexivity |].
    destruct (stopCapturing_respectful d w Hstop)
      as (Hwt & Hinit & Hsz & [(_ & Hnull & _) | (_ & Hcur & Hheap)]).
    + split.
      { intros Hi. rewrite Hinit in Hi. rewrite Hwt. exact (Hworker Hi). }
      { intros b' Hb'. rewrite Hnull in Hb'. discriminate. }
    + split.
      { intros Hi. rewrite Hinit in Hi. rewrite Hwt. exact (Hworker Hi). }
      { exact (frame_wf_same _ _ _ _ Hcur Hsz Hheap Hframe). }
  - (* startWorkerThread *)
    unfold startWorkerThread, getWorkerThread.
    destruct (isInitialized d) eqn:Hinit; cbn [negb].
    + destruct (Hworker Hinit) as (wt & Hwt & Hcons). rewrite Hwt.
      cbn [mbind option_bind].
      pose proof (startThread_consistent o wt w Hcons) as Hcons'.
      pose proof (startThread_heap o wt w) as Hheap.
      destruct (startThread o wt w) as [[ret wt'] w'].
      cbn [mbind option_bind fst snd] in *.
      eexists _, _. split; [reflexivity |]. split.
      * intros _. exists wt'. split; [reflexivity | exact Hcons'].
      * apply (frame_wf_same d _ w w'); auto.
    + cbn [mbind option_bind fst snd]. eexists _, _.
      split; [reflexivity |]. split; [exact Hworker | exact Hframe].
  - (* stopWorkerThread *)
    unfold stopWorkerThread, getWorkerThread.
    destruct (isInitialized d) eqn:Hinit; cbn [negb].
    + destruct (Hworker Hinit) as (wt & Hwt & Hcons). rewrite Hwt.
      cbn [mbind option_bind].
      pose proof (stopThread_consistent o wt w Hcons) as Hcons'.
      pose proof (stopThread_heap o wt w) as Hheap.
      destruct (stopThread o wt w) as [[ret wt'] w'].
      cbn [mbind option_bind fst snd] in *.
      eexists _, _. split; [reflexivity |]. split.
      * intros _. exists wt'. split; [reflexivity | exact Hcons'].
      * apply (frame_wf_same d _ w w'); auto.
    + cbn [mbind option_bind fst snd]. eexists _, _.
      split; [reflexivity |]. split; [exact Hworker | exact Hframe].
Qed.

(** X9: on a device that was constructed and then driven by any sequence of
    [Initialize], [startCapturing], [stopCapturing], [startWorkerThread]
    and [stopWorkerThread] calls, with hooks that stay within their remit
    and whatever the environment answers, no call dereferences a null
    worker thread, and at the end the worker thread object exists if the
    device is initialized, its endpoints are both open or both closed, and
    the frame buffer, if any, is a live block of the cached byte size. *)
Theorem api_calls_keep_device_wf `{DeviceHooks} cs garbage w0 :
  hooks_respect_base ->
  exists d w,
    run_calls cs (EmulatedCameraDevice_new garbage, w0) = Some (d, w) /\
    device_wf d w.
Proof.
  intros Hhooks.
  assert (Hwf0 : device_wf (EmulatedCameraDevice_new garbage) w0).
  { split; [intros Hi; discriminate | intros b Hb; discriminate]. }
  revert Hwf0. generalize (EmulatedCameraDevice_new garbage) as d.
  revert w0. induction cs as [| c cs IH]; intros w d Hwf.
  - exists d, w. split; [reflexivity | exact Hwf].
  - destruct (run_call_device_wf c d w Hhooks Hwf) as (d' & w' & Hrun & Hwf').
    cbn [run_calls]. rewrite Hrun. cbn [mbind option_bind].
    apply IH, Hwf'.
Qed.

Lemma api_calls_keep_device_wf_witness :
  exists d w,
    @run_calls Sample.checked_hooks SampleMore.calls
      (EmulatedCameraDevice_new Sample.garbage, Sample.world0) = Some (d, w) /\
    device_wf d w.
Proof.
  apply (@api_calls_keep_device_wf Sample.checked_hooks).
  split; intros d w; cbn.
  - destruct (isInitialized d) eqn:Hi; cbn; [| auto 10].
    destruct (isCapturing d); cbn; auto 10.
  - destruct (isCapturing d) eqn:Hc; cbn; [| auto 10].
    unfold isInitialized, isCapturing in *.
    destruct (mState d); cbn in *; try discriminate; auto 10.
Defined.

(** ** Extras on the worker thread *)

(** X10: creating the control pipe and then stopping the thread leaves no
    descriptor behind.  When [pipe] hands out two descriptors that were not
    open, the stop message is written in full and the join succeeds,
    [readyToRun] followed by [stopThread] succeeds, both endpoints are back
    at -1 and the descriptor table is what it was before. *)
Theorem control_pipe_round_trip (r wr : N) so wt w :
  Z.of_N r ∉ fdtable w -> Z.of_N wr ∉ fdtable w ->
  write_ret so = sizeof_ControlMessage -> join_ret so = NO_ERROR ->
  let s1 := readyToRun (PipeGives r wr) wt w in
  let s2 := stopThread so s1.1.2 s1.2 in
  s1.1.1 = NO_ERROR /\ s2.1.1 = NO_ERROR /\
  s2.1.2 = WorkerThread_new /\ fdtable s2.2 = fdtable w.
Proof.
  intros Hr Hwr Hwrite Hjoin. cbv zeta.
  assert (Hwr0 : (0 <=? Z.of_N wr) = true) by (apply Z.leb_le; lia).
  assert (Hr0 : (0 <=? Z.of_N r) = true) by (apply Z.leb_le; lia).
  cbn [readyToRun fst snd]. unfold stopThread.
  cbn [mThreadControl mControlFD].
  rewrite Hwr0, Hwrite, Hjoin, !Z.eqb_refl. cbn [mThreadControl mControlFD].
  rewrite Hr0. cbn [fst snd mControlFD].
  split; [reflexivity |]. split; [reflexivity |]. split; [reflexivity |].
  cbn [close emit set_fdtable fdtable].
  apply set_eq. intros x.
  rewrite !elem_of_difference, !elem_of_union, !elem_of_singleton.
  split.
  - intros [[[[-> | ->] | Hx] Hn1] Hn2]; [contradiction.. | exact Hx].
  - intros Hx. repeat split.
    + right. exact Hx.
    + intros ->. contradiction.
    + intros ->. contradiction.
Qed.

Lemma control_pipe_round_trip_witness :
  let s1 := readyToRun (PipeGives 4 5) WorkerThread_new Sample.world0 in
  let s2 := stopThread (mkStopOracle 4 0 NO_ERROR) s1.1.2 s1.2 in
  s1.1.1 = NO_ERROR /\ s2.1.1 = NO_ERROR /\
  s2.1.2 = WorkerThread_new /\ fdtable s2.2 = fdtable Sample.world0.
Proof.
  apply (control_pipe_round_trip 4 5 (mkStopOracle 4 0 NO_ERROR)
           WorkerThread_new Sample.world0).
  - vm_compute. discriminate.
  - vm_compute. discriminate.
  - reflexivity.
  - reflexivity.
Defined.

(** X11: [readyToRun] does not close endpoints that are already open.  If
    the two endpoints are open descriptors and [pipe] hands out two fresh
    ones, the thread object is switched to the new pair while the old pair
    stays open; and a later [stopThread], even a successful one, closes
    only the new pair, so the old descriptors are leaked. *)
Theorem readyToRun_leaks_open_endpoints (r wr : N) so wt w :
  mThreadControl wt ∈ fdtable w -> mControlFD wt ∈ fdtable w ->
  Z.of_N r ∉ fdtable w -> Z.of_N wr ∉ fdtable w ->
  let s1 := readyToRun (PipeGives r wr) wt w in
  let s2 := stopThread so s1.1.2 s1.2 in
  mThreadControl s1.1.2 = Z.of_N wr /\ mControlFD s1.1.2 = Z.of_N r /\
  mThreadControl wt ∈ fdtable s1.2 /\ mControlFD wt ∈ fdtable s1.2 /\
  mThreadControl wt ∈ fdtable s2.2 /\ mControlFD wt ∈ fdtable s2.2.
Proof.
  intros Htc Hcfd Hr Hwr. cbv zeta.
  assert (Hne : forall x, x ∈ fdtable w -> x <> Z.of_N r /\ x <> Z.of_N wr).
  { intros x Hx. split; intros ->; contradiction. }
  cbn [readyToRun fst snd mThreadControl mControlFD].
  split; [reflexivity |]. split; [reflexivity |].
  assert (Hkeep : forall x, x ∈ fdtable w ->
            x ∈ fdtable (emit (EvPipe (Some (Z.of_N r, Z.of_N wr)))
                           (set_fdtable ({[Z.of_N r; Z.of_N wr]} ∪ fdtable w)
                                        w))).
  { intros x Hx. cbn [emit set_fdtable fdtable].
    apply elem_of_union. right. exact Hx. }
  split; [apply Hkeep, Htc |]. split; [apply Hkeep, Hcfd |].
  assert (Hstop : forall x, x ∈ fdtable w ->
            x ∈ fdtable
                  (stopThread so
                     {| mThreadControl := Z.of_N wr; mControlFD := Z.of_N r |}
                     (emit (EvPipe (Some (Z.of_N r, Z.of_N wr)))
                        (set_fdtable ({[Z.of_N r; Z.of_N wr]} ∪ fdtable w)
                                     w))).2).
  { intros x Hx. destruct (Hne x Hx) as [Hxr Hxwr].
    unfold stopThread. cbn [mThreadControl mControlFD].
    destruct (0 <=? Z.of_N wr); [| apply Hkeep, Hx].
    destruct (write_ret so =? sizeof_ControlMessage);
      [| apply Hkeep, Hx].
    destruct (join_ret so =? NO_ERROR); [| apply Hkeep, Hx].
    cbn [mControlFD].
    destruct (0 <=? Z.of_N r); cbn [snd close emit set_fdtable fdtable];
      rewrite !elem_of_difference, !elem_of_union, !elem_of_singleton; tauto. }
  split; [apply Hstop, Htc | apply Hstop, Hcfd].
Qed.

Lemma readyToRun_leaks_open_endpoints_witness :
  let s1 := readyToRun (PipeGives 8 9) Sample.started_thread
              Sample.world_thread in
  let s2 := stopThread (mkStopOracle 4 0 NO_ERROR) s1.1.2 s1.2 in
  s1.1.2 = {| mThreadControl := 9; mControlFD := 8 |} /\
  s2.1.1 = NO_ERROR /\ s2.1.2 = WorkerThread_new /\
  (5 ∈ fdtable s2.2) /\ (4 ∈ fdtable s2.2).
Proof.
  cbv zeta. split; [reflexivity |]. split; [reflexivity |].
  split; [reflexivity |].
  apply (readyToRun_leaks_open_endpoints 8 9 (mkStopOracle 4 0 NO_ERROR)
           Sample.started_thread Sample.world_thread).
  - vm_compute. reflexivity.
  - vm_compute. reflexivity.
  - vm_compute. discriminate.
  - vm_compute. discriminate.
Defined.

(** X12: [stopThread] succeeds exactly when the write endpoint is open, the
    stop message was written in full and the join succeeded.  The stop
    message is written once when the write endpoint is open and never
    otherwise; with the endpoint closed the call returns [EINVAL] and
    changes nothing. *)
Theorem stopThread_succeeds_iff o wt w :
  let r := stopThread o wt w in
  (r.1.1 = NO_ERROR <->
   0 <= mThreadControl wt /\ write_ret o = sizeof_ControlMessage /\
   join_ret o = NO_ERROR) /\
  count_events is_write (log r.2)
  = (if 0 <=? mThreadControl wt then S (count_events is_write (log w))
     else count_events is_write (log w)) /\
  (mThreadControl wt < 0 -> r = (EINVAL, wt, w)).
Proof.
  cbv zeta. unfold stopThread.
  destruct (0 <=? mThreadControl wt) eqn:Hopen; cbn [fst snd].
  - apply Z.leb_le in Hopen.
    destruct (write_ret o =? sizeof_ControlMessage) eqn:Hwr.
    + apply Z.eqb_eq in Hwr.
      destruct (join_ret o =? NO_ERROR) eqn:Hjoin.
      * apply Z.eqb_eq in Hjoin. cbn [mControlFD].
        destruct (0 <=? mControlFD wt); cbn [fst snd];
          (split; [tauto |]); (split; [reflexivity | lia]).
      * apply Z.eqb_neq in Hjoin. cbn [fst snd].
        split; [tauto |]. split; [reflexivity | lia].
    + apply Z.eqb_neq in Hwr. cbn [fst snd].
      split; [| split; [reflexivity | lia]].
      split; [| tauto].
      destruct (write_errno o =? 0) eqn:He; [discriminate |].
      apply Z.eqb_neq in He. contradiction.
  - apply Z.leb_gt in Hopen.
    split; [split; [discriminate | lia] |]. split; reflexivity.
Qed.

Lemma stopThread_succeeds_iff_witness :
  stopThread (mkStopOracle 4 0 NO_ERROR) WorkerThread_new Sample.world0
  = (EINVAL, WorkerThread_new, Sample.world0).
Proof.
  apply (stopThread_succeeds_iff (mkStopOracle 4 0 NO_ERROR) WorkerThread_new
           Sample.world0).
  vm_compute. reflexivity.
Defined.

(** X13: stopping twice.  After a successful [stopThread] any further
    [stopThread] returns [EINVAL] and does nothing: no message is written,
    nothing is joined or closed. *)
Theorem stopThread_twice o o' wt w :
  (stopThread o wt w).1.1 = NO_ERROR ->
  stopThread o' (stopThread o wt w).1.2 (stopThread o wt w).2
  = (EINVAL, (stopThread o wt w).1.2, (stopThread o wt w).2).
Proof.
  intros Hok.
  destruct (stopThread_cases o wt w)
    as [(_ & _ & _ & _ & Htc & _) | (Hne & _)]; [| contradiction].
  unfold stopThread at 1. rewrite Htc. reflexivity.
Qed.

Lemma stopThread_twice_witness :
  let s := stopThread (mkStopOracle 4 0 NO_ERROR) Sample.started_thread
             Sample.world_thread in
  s.1.1 = NO_ERROR /\
  stopThread (mkStopOracle 4 0 NO_ERROR) s.1.2 s.2 = (EINVAL, s.1.2, s.2).
Proof.
  cbv zeta. split; [reflexivity |].
  apply (stopThread_twice (mkStopOracle 4 0 NO_ERROR)
           (mkStopOracle 4 0 NO_ERROR) Sample.started_thread
           Sample.world_thread).
  reflexivity.
Defined.

(** ** Extras on the readiness wait *)

Lemma Select_wait_timeval o wt fd timeout w :
  Select_wait o wt fd timeout w
  = sys_select o w
      (if 0 <=? fd then int_add (Z.max fd (mControlFD wt)) 1
       else int_add (mControlFD wt) 1)
      (if 0 <=? fd then {[fd]} ∪ ({[mControlFD wt]} ∪ ∅)
       else {[mControlFD wt]} ∪ ∅)
      (Select_timeval timeout).
Proof. reflexivity. Qed.

(** X14: the [timeval] that [Select] builds from a positive [timeout] is the
    same number of microseconds, split into seconds and a remainder below
    one million; for a [timeout] of 0 no [timeval] is built. *)
Theorem Select_timeval_exact timeout :
  0 <= timeout <= INT_MAX ->
  match Select_timeval timeout with
  | None => timeout = 0
  | Some tv =>
      0 < timeout /\
      tv_sec tv * 1000000 + tv_usec tv = timeout /\
      0 <= tv_sec tv /\ 0 <= tv_usec tv < 1000000
  end.
Proof.
  intros Ht. unfold Select_timeval.
  destruct (timeout =? 0) eqn:Hz; [apply Z.eqb_eq in Hz; exact Hz |].
  apply Z.eqb_neq in Hz. cbn [tv_sec tv_usec].
  assert (Hr : 0 <= Z.rem timeout 1000000 < 1000000)
    by (apply Z.rem_bound_pos; lia).
  assert (Hq : 0 <= Z.quot timeout 1000000 <= timeout).
  { pose proof (quot_between timeout 1000000 eq_refl). lia. }
  pose proof (Z.quot_rem' timeout 1000000) as Hdiv.
  unfold int_div, int_rem.
  rewrite !wrap_int_id by (unfold INT_MIN, INT_MAX in *; lia).
  lia.
Qed.

Lemma Select_timeval_exact_witness :
  Select_timeval 2500000 = Some {| tv_sec := 2; tv_usec := 500000 |} /\
  0 < 2500000 /\ 2 * 1000000 + 500000 = 2500000.
Proof.
  pose proof (Select_timeval_exact 2500000) as Hex.
  assert (Hrange : 0 <= 2500000 <= INT_MAX) by (unfold INT_MAX; lia).
  specialize (Hex Hrange).
  split; [reflexivity |]. split; lia.
Defined.

(** X15: a negative [timeout] does not mean "no timeout": the [timeval]
    built from it has a negative field, the wait rejects it, and [Select]
    returns [ERROR] without reading anything. *)
Theorem Select_negative_timeout o wt fd timeout w :
  INT_MIN <= timeout < 0 ->
  Select o wt fd timeout w = Some (ERROR, w).
Proof.
  intros Ht. unfold Select. rewrite Select_wait_timeval.
  unfold Select_timeval.
  replace (timeout =? 0) with false by (symmetry; apply Z.eqb_neq; lia).
  unfold sys_select. cbn [tv_sec tv_usec].
  assert (Hbad : (int_div timeout 1000000 <? 0)
                 || (int_rem timeout 1000000 <? 0) = true).
  { pose proof (quot_between timeout 1000000 eq_refl) as Hq.
    assert (Hopp : Z.rem (- timeout) 1000000 = - Z.rem timeout 1000000)
      by (apply Z.rem_opp_l; lia).
    assert (Hpos : 0 <= Z.rem (- timeout) 1000000 < 1000000)
      by (apply Z.rem_bound_pos; lia).
    pose proof (Z.quot_rem' timeout 1000000) as Hdiv.
    unfold int_div, int_rem.
    rewrite !wrap_int_id by (unfold INT_MIN, INT_MAX in *; lia).
    apply orb_true_iff. rewrite !Z.ltb_lt. lia. }
  rewrite Hbad, orb_true_r. reflexivity.
Qed.

Lemma Select_negative_timeout_witness :
  Select Sample.stop_pending Sample.started_thread 7 (-1) Sample.world_thread
  = Some (ERROR, Sample.world_thread).
Proof.
  apply Select_negative_timeout. unfold INT_MIN. lia.
Defined.

(** X16: what a result of [Select] tells the caller.  [Select] never
    changes the heap or the descriptor table.  [READY] and [TIMEOUT] are
    returned without any read, the world being exactly as before.
    [EXIT_THREAD] is returned only after one read of the control descriptor
    that delivered a whole [THREAD_STOP] message. *)
Theorem Select_result_meaning o wt fd timeout w r w' :
  Select o wt fd timeout w = Some (r, w') ->
  heap w' = heap w /\ fdtable w' = fdtable w /\
  (r = READY \/ r = TIMEOUT -> w' = w) /\
  (r = EXIT_THREAD ->
   w' = emit (EvRead (mControlFD wt) sizeof_ControlMessage) w /\
   read_ret o = sizeof_ControlMessage /\ read_msg o = THREAD_STOP).
Proof.
  unfold Select.
  destruct (Select_wait o wt fd timeout w) as [[res fds] |];
    [| discriminate].
  cbn [mbind option_bind].
  destruct (res <? 0).
  { intros Heq. injection Heq as <- <-.
    repeat split; try reflexivity; discriminate. }
  destruct (res =? 0).
  { intros Heq. injection Heq as <- <-.
    repeat split; try reflexivity; discriminate. }
  destruct (bool_decide (mControlFD wt ∈ fds)).
  - destruct (read_ret o =? sizeof_ControlMessage) eqn:Hsz; cbn [negb].
    + apply Z.eqb_eq in Hsz.
      destruct (read_msg o =? THREAD_STOP) eqn:Hmsg.
      * apply Z.eqb_eq in Hmsg. intros Heq. injection Heq as <- <-.
        split; [reflexivity |]. split; [reflexivity |].
        split; [intros [? | ?]; discriminate |].
        intros _. rewrite Hsz. auto.
      * intros Heq. injection Heq as <- <-.
        split; [reflexivity |]. split; [reflexivity |].
        split; [intros [? | ?]; discriminate | discriminate].
    + intros Heq. injection Heq as <- <-.
      split; [reflexivity |]. split; [reflexivity |].
      split; [intros [? | ?]; discriminate | discriminate].
  - intros Heq. injection Heq as <- <-.
    repeat split; try reflexivity; discriminate.
Qed.

Lemma Select_result_meaning_witness :
  let w := set_fdtable ({[7]} ∪ fdtable Sample.world_thread)
             Sample.world_thread in
  Select Sample.stop_pending Sample.started_thread 7 0 w
  = Some (EXIT_THREAD, emit (EvRead 4 4) w) /\
  read_ret Sample.stop_pending = sizeof_ControlMessage /\
  read_msg Sample.stop_pending = THREAD_STOP.
Proof.
  cbv zeta.
  assert (Hrun : Select Sample.stop_pending Sample.started_thread 7 0
                   (set_fdtable ({[7]} ∪ fdtable Sample.world_thread)
                                Sample.world_thread)
                 = Some (EXIT_THREAD,
                         emit (EvRead 4 4)
                           (set_fdtable ({[7]} ∪ fdtable Sample.world_thread)
                                        Sample.world_thread)))
    by (vm_compute; reflexivity).
  split; [exact Hrun |].
  destruct (Select_result_meaning _ _ _ _ _ _ _ Hrun) as (_ & _ & _ & Hexit).
  destruct (Hexit eq_refl) as (_ & Hsz & Hmsg). auto.
Defined.

Lemma run_op_endpoints_valid op s :
  endpoints_valid s.1 s.2 -> endpoints_valid (run_op op s).1 (run_op op s).2.
Proof.
  destruct s as [wt w]. cbn [fst snd]. intros Hvalid.
  assert (Hready : forall o,
            endpoints_valid (readyToRun o wt w).1.2 (readyToRun o wt w).2).
  { intros [r wr | errno]; cbn [readyToRun fst snd]; [| exact Hvalid].
    intros _. cbn [mThreadControl mControlFD emit set_fdtable fdtable].
    rewrite !elem_of_union, !elem_of_singleton. auto. }
  destruct op as [o | o | o]; cbn [run_op fst snd].
  - apply Hready.
  - unfold startThread. specialize (Hready o).
    destruct (readyToRun o wt w) as [[res wt'] w'].
    destruct (res =? NO_ERROR); exact Hready.
  - destruct (stopThread_cases o wt w)
      as [(_ & _ & _ & _ & Htc & _) | (_ & Hwt & Hfd & _)].
    + intros Hopen. rewrite Htc in Hopen. discriminate.
    + rewrite Hwt. intros Hopen. rewrite Hfd. exact (Hvalid Hopen).
Qed.

(** X17: the thread object never holds a stale descriptor.  After any
    history of [readyToRun], [startThread] and [stopThread] calls on a new
    worker thread object, whatever the environment answered, if the write
    endpoint is open then both endpoints are open descriptors of the
    process. *)
Theorem endpoints_always_valid ops w0 :
  let s := run_ops ops (WorkerThread_new, w0) in
  endpoint_open (mThreadControl s.1) = true ->
  mThreadControl s.1 ∈ fdtable s.2 /\ mControlFD s.1 ∈ fdtable s.2.
Proof.
  cbv zeta.
  assert (Hgen : forall s, endpoints_valid s.1 s.2 ->
                           endpoints_valid (run_ops ops s).1 (run_ops ops s).2).
  { induction ops as [| op ops IH]; intros s Hs; [exact Hs |].
    cbn [run_ops]. apply IH, run_op_endpoints_valid, Hs. }
  apply (Hgen (WorkerThread_new, w0)). intros Hopen. discriminate.
Qed.

Lemma endpoints_always_valid_witness :
  let s := run_ops [OpStart (PipeGives 4 5);
                    OpStop (mkStopOracle 4 0 7);
                    OpReady (PipeFails 24)]
             (WorkerThread_new, Sample.world0) in
  endpoint_open (mThreadControl s.1) = true /\
  (mThreadControl s.1 ∈ fdtable s.2) /\ (mControlFD s.1 ∈ fdtable s.2).
Proof.
  cbv zeta. split; [reflexivity |].
  apply (endpoints_always_valid
           [OpStart (PipeGives 4 5); OpStop (mkStopOracle 4 0 7);
            OpReady (PipeFails 24)] Sample.world0).
  reflexivity.
Defined.
